(** * PSLab firmware: the logic analyzer driver

    A shallow embedding of [src/instruments/logic_analyzer.c] and the
    properties of its capture orchestration: request validation, buffer
    partitioning, trigger selection, the trigger sequence, per-channel
    cleanup and stop.

    The driver talks to five peripheral drivers (TMR, IC, CN, DMA, PINS)
    whose sources are outside this file.  Every call the driver makes is
    recorded, in order, in a log carried by the state, and is also
    interpreted on a small register-level model of the peripherals. *)

From stdpp Require Import base numbers list gmap.

Local Open Scope Z_scope.

(** ** Types of the headers *)

(** [types.h]: the enumerators of [Channel] and [Edge], and [buffer.h]: the
    length of the sample buffer.  The headers are not part of the sources,
    so the numeric values are parameters of the development.  [Channel] and
    [Edge] values are C integers: the driver compares them with bytes read
    from the UART and uses loop counters as channels. *)
Class Platform := {
  CHANNEL_NONE : Z;
  CHANNEL_1 : Z;
  CHANNEL_2 : Z;
  CHANNEL_3 : Z;
  CHANNEL_4 : Z;
  CHANNEL_NUMEL : Z;
  EDGE_NONE : Z;
  EDGE_ANY : Z;
  EDGE_FALLING : Z;
  EDGE_RISING : Z;
  BUFFER_SIZE : Z
}.

(** [commands.h]: the two response codes the driver returns. *)
Inductive response_t := SUCCESS | ARGUMENT_ERROR.

(** [registers_ng/tmr.h]: the timers the driver names. *)
Inductive TMR_Timer := TMR_TIMER_1 | TMR_TIMER_5.

(** [registers_ng/ic.h]: clock sources of an Input Capture channel. *)
Inductive IC_Timer := IC_TIMER_TMR1 | IC_TIMER_PERIPHERAL.

(** [registers_ng/dma.h]: the DMA request source the driver uses. *)
Inductive DMA_Source := DMA_SOURCE_IC.

(** The static functions of the driver that are registered as interrupt
    callbacks (function pointers in the source). *)
Inductive Callback := cb_cleanup_callback | cb_ic_callback | cb_cn_callback.

(** A pointer into the sample buffer: [BUFFER_plus k] is [BUFFER + k], the
    address of element [k] of [BUFFER]. *)
Inductive address := BUFFER_plus (k : Z).

#[global] Instance response_t_eq_dec : EqDecision response_t.
Proof. solve_decision. Defined.
#[global] Instance TMR_Timer_eq_dec : EqDecision TMR_Timer.
Proof. solve_decision. Defined.
#[global] Instance IC_Timer_eq_dec : EqDecision IC_Timer.
Proof. solve_decision. Defined.
#[global] Instance DMA_Source_eq_dec : EqDecision DMA_Source.
Proof. solve_decision. Defined.
#[global] Instance Callback_eq_dec : EqDecision Callback.
Proof. solve_decision. Defined.
#[global] Instance address_eq_dec : EqDecision address.
Proof. solve_decision. Defined.

#[global] Instance TMR_Timer_countable : Countable TMR_Timer.
Proof.
  refine (inj_countable'
    (fun t => match t with TMR_TIMER_1 => 1%positive | TMR_TIMER_5 => 5%positive end)
    (fun p => match p with 1%positive => TMR_TIMER_1 | _ => TMR_TIMER_5 end) _).
  intros []; reflexivity.
Defined.

(** ** Calls into the peripheral drivers *)

(** One constructor per external function the driver calls, with the
    arguments of the call. *)
Inductive Call :=
| TMR_set_period (timer : TMR_Timer) (period : Z)
| TMR_start (timer : TMR_Timer)
| TMR_reset (timer : TMR_Timer)
| PINS_get_la_states
| DMA_setup (channel : Z) (count : Z) (dest : address) (source : DMA_Source)
| DMA_interrupt_enable (channel : Z) (callback : Callback)
| DMA_start (channel : Z)
| DMA_reset (channel : Z)
| IC_start (channel : Z) (edge : Z) (timer : IC_Timer)
| IC_interrupt_enable (channel : Z) (callback : Callback)
| IC_interrupt_disable (channel : Z)
| IC_reset (channel : Z)
| CN_interrupt_enable (pin : Z) (callback : Callback)
| CN_reset
| UART1_Write (byte : Z).

#[global] Instance Call_eq_dec : EqDecision Call.
Proof. solve_decision. Defined.

(** ** The peripherals *)

(** Modelled from the spec: the peripheral drivers ([registers_ng/tmr.c],
    [ic.c], [cn.c], [dma.c], [pins.c]) are not part of the sources.  The
    spec gives their interface and says that a reset returns a unit to
    idle and that disabling an interrupt or resetting the Change
    Notification source disarms it.  A unit that is absent from its map is
    idle.
    - [hw_tmr]: reload period and running flag of each started or
      configured timer;
    - [hw_ic]: edge mode and clock source of each started Input Capture
      unit; [hw_ic_irq]: the callback armed on its interrupt;
    - [hw_cn_irq]: the pin and callback armed on Change Notification;
    - [hw_dma]: event count, destination and source of each configured
      Transfer Channel; [hw_dma_irq]: its completion callback;
      [hw_dma_on]: the started channels;
    - [hw_pins]: the logic levels of the LA pins, one bit per pin. *)
Record HW := mkHW {
  hw_tmr : gmap TMR_Timer (Z * bool);
  hw_ic : gmap Z (Z * IC_Timer);
  hw_ic_irq : gmap Z Callback;
  hw_cn_irq : option (Z * Callback);
  hw_dma : gmap Z (Z * address * DMA_Source);
  hw_dma_irq : gmap Z Callback;
  hw_dma_on : gset Z;
  hw_pins : Z
}.

(** The state of a timer: its reload period and whether it runs. *)
Definition tmr_state (h : HW) (t : TMR_Timer) : Z * bool :=
  default (0, false) (hw_tmr h !! t).

(** Modelled from the spec: the effect of each peripheral call on the
    peripherals (section 6 of the spec lists the operations; reset returns
    the unit to idle). *)
Definition hw_step (c : Call) (h : HW) : HW :=
  match c with
  | TMR_set_period t p =>
      mkHW (<[t := (p, snd (tmr_state h t))]> (hw_tmr h)) (hw_ic h)
        (hw_ic_irq h) (hw_cn_irq h) (hw_dma h) (hw_dma_irq h) (hw_dma_on h)
        (hw_pins h)
  | TMR_start t =>
      mkHW (<[t := (fst (tmr_state h t), true)]> (hw_tmr h)) (hw_ic h)
        (hw_ic_irq h) (hw_cn_irq h) (hw_dma h) (hw_dma_irq h) (hw_dma_on h)
        (hw_pins h)
  | TMR_reset t =>
      mkHW (delete t (hw_tmr h)) (hw_ic h)
        (hw_ic_irq h) (hw_cn_irq h) (hw_dma h) (hw_dma_irq h) (hw_dma_on h)
        (hw_pins h)
  | PINS_get_la_states => h
  | DMA_setup ch n a src =>
      mkHW (hw_tmr h) (hw_ic h) (hw_ic_irq h) (hw_cn_irq h)
        (<[ch := (n, a, src)]> (hw_dma h)) (hw_dma_irq h) (hw_dma_on h)
        (hw_pins h)
  | DMA_interrupt_enable ch cb =>
      mkHW (hw_tmr h) (hw_ic h) (hw_ic_irq h) (hw_cn_irq h)
        (hw_dma h) (<[ch := cb]> (hw_dma_irq h)) (hw_dma_on h)
        (hw_pins h)
  | DMA_start ch =>
      mkHW (hw_tmr h) (hw_ic h) (hw_ic_irq h) (hw_cn_irq h)
        (hw_dma h) (hw_dma_irq h) ({[ch]} ∪ hw_dma_on h)
        (hw_pins h)
  | DMA_reset ch =>
      mkHW (hw_tmr h) (hw_ic h) (hw_ic_irq h) (hw_cn_irq h)
        (delete ch (hw_dma h)) (delete ch (hw_dma_irq h))
        (hw_dma_on h ∖ {[ch]}) (hw_pins h)
  | IC_start ch e clk =>
      mkHW (hw_tmr h) (<[ch := (e, clk)]> (hw_ic h)) (hw_ic_irq h)
        (hw_cn_irq h) (hw_dma h) (hw_dma_irq h) (hw_dma_on h) (hw_pins h)
  | IC_interrupt_enable ch cb =>
      mkHW (hw_tmr h) (hw_ic h) (<[ch := cb]> (hw_ic_irq h))
        (hw_cn_irq h) (hw_dma h) (hw_dma_irq h) (hw_dma_on h) (hw_pins h)
  | IC_interrupt_disable ch =>
      mkHW (hw_tmr h) (hw_ic h) (delete ch (hw_ic_irq h))
        (hw_cn_irq h) (hw_dma h) (hw_dma_irq h) (hw_dma_on h) (hw_pins h)
  | IC_reset ch =>
      mkHW (hw_tmr h) (delete ch (hw_ic h)) (delete ch (hw_ic_irq h))
        (hw_cn_irq h) (hw_dma h) (hw_dma_irq h) (hw_dma_on h) (hw_pins h)
  | CN_interrupt_enable pin cb =>
      mkHW (hw_tmr h) (hw_ic h) (hw_ic_irq h)
        (Some (pin, cb)) (hw_dma h) (hw_dma_irq h) (hw_dma_on h) (hw_pins h)
  | CN_reset =>
      mkHW (hw_tmr h) (hw_ic h) (hw_ic_irq h)
        None (hw_dma h) (hw_dma_irq h) (hw_dma_on h) (hw_pins h)
  | UART1_Write _ => h
  end.

(** ** The state of the driver *)

(** The two globals of the file ([uint8_t] both), the peripherals, and the
    log of the calls made so far, oldest first. *)
Record state := mkState {
  g_num_channels : Z;
  g_initial_states : Z;
  hw : HW;
  calls : list Call
}.

(** [g_TIMER]: the timer shared by all Input Capture channels. *)
Definition g_TIMER : TMR_Timer := TMR_TIMER_5.

(** Conversion to [uint8_t]. *)
Definition uint8 (z : Z) : Z := z mod 256.

(** A call to a peripheral driver: log it and apply its effect. *)
Definition perform (c : Call) (s : state) : state :=
  mkState (g_num_channels s) (g_initial_states s)
    (hw_step c (hw s)) (calls s ++ [c]).

Definition set_g_num_channels (n : Z) (s : state) : state :=
  mkState n (g_initial_states s) (hw s) (calls s).

Definition set_g_initial_states (v : Z) (s : state) : state :=
  mkState (g_num_channels s) v (hw s) (calls s).

(** ** The driver *)

Section Driver.
Context `{Platform}.

(** [timer2ictsel]. *)
Definition timer2ictsel (timer : TMR_Timer) : IC_Timer :=
  match timer with
  | TMR_TIMER_1 => IC_TIMER_TMR1
  | _ => IC_TIMER_PERIPHERAL
  end.

(** The [switch] of [trigger]: the cases fall through, so entering at
    [case k] runs the statements of the cases [k], [k-1], ..., [1]. *)
Definition trigger_case_1 (s : state) : state :=
  perform (DMA_start CHANNEL_1) s.
Definition trigger_case_2 (s : state) : state :=
  trigger_case_1 (perform (DMA_start CHANNEL_2) s).
Definition trigger_case_3 (s : state) : state :=
  trigger_case_2 (perform (DMA_start CHANNEL_3) s).
Definition trigger_case_4 (s : state) : state :=
  trigger_case_3 (perform (DMA_start CHANNEL_4) s).

Definition trigger_switch (s : state) : state :=
  if g_num_channels s =? 4 then trigger_case_4 s
  else if g_num_channels s =? 3 then trigger_case_3 s
  else if g_num_channels s =? 2 then trigger_case_2 s
  else if g_num_channels s =? 1 then trigger_case_1 s
  else s.

(** [trigger]. *)
Definition trigger (s : state) : state :=
  let s := perform (TMR_set_period g_TIMER 1) s in
  let s := perform (TMR_start g_TIMER) s in
  let s := set_g_initial_states (uint8 (hw_pins (hw s)))
             (perform PINS_get_la_states s) in
  let s := trigger_switch s in
  perform (TMR_set_period g_TIMER 0) s.

(** [ic_callback]. *)
Definition ic_callback (channel : Z) (s : state) : state :=
  let s := perform (IC_interrupt_disable channel) s in
  trigger s.

(** [cn_callback]; the argument is unused. *)
Definition cn_callback (channel : Z) (s : state) : state :=
  let s := perform CN_reset s in
  trigger s.

(** [cleanup_callback]. *)
Definition cleanup_callback (channel : Z) (s : state) : state :=
  let s := perform (DMA_reset channel) s in
  let s := perform (IC_reset channel) s in
  let s := set_g_num_channels (uint8 (g_num_channels s - 1)) s in
  if g_num_channels s =? 0 then perform (TMR_reset g_TIMER) s else s.

(** [configure_trigger]. *)
Definition configure_trigger (edge trigger_pin : Z) (s : state) : state :=
  if trigger_pin =? CHANNEL_NONE then trigger s
  else if edge =? EDGE_ANY then
    perform (CN_interrupt_enable trigger_pin cb_cn_callback) s
  else perform (IC_interrupt_enable trigger_pin cb_ic_callback) s.

(** The body of the loop of [capture], for counter [i].  The offset
    [i * BUFFER_SIZE / num_channels] is computed in [int], with the
    truncating division of C; it is added to the pointer [BUFFER].  With
    the 10k buffer and at most four channels the product stays below
    [2^15], so it does not overflow a 16-bit [int]. *)
Definition capture_body (num_channels events edge : Z)
    (s : state) (i : Z) : state :=
  let address := BUFFER_plus (Z.quot (i * BUFFER_SIZE) num_channels) in
  let s := perform (DMA_setup i events address DMA_SOURCE_IC) s in
  let s := perform (DMA_interrupt_enable i cb_cleanup_callback) s in
  perform (IC_start i edge (timer2ictsel g_TIMER)) s.

(** [capture]: the loop runs [i] over [0], ..., [num_channels - 1]. *)
Definition capture (num_channels events edge trigger_pin : Z)
    (s : state) : state :=
  let s := set_g_num_channels num_channels s in
  let s := foldl (capture_body num_channels events edge) s
             (seqZ 0 num_channels) in
  configure_trigger edge trigger_pin s.

(** [LA_capture].  The four arguments are the values returned by the four
    UART reads, in the order of the calls: [UART1_Read] ([uint8_t]),
    [UART1_ReadInt] ([uint16_t]), [UART1_Read], [UART1_Read]. *)
Definition LA_capture (num_channels events edge trigger : Z)
    (s : state) : response_t * state :=
  if num_channels =? 0 then (ARGUMENT_ERROR, s)
  else if num_channels >? CHANNEL_NUMEL then (ARGUMENT_ERROR, s)
  else if edge =? EDGE_NONE then (ARGUMENT_ERROR, s)
  else (SUCCESS, capture num_channels events edge trigger s).

(** [LA_stop]: the loop runs [i] over [0], ..., [CHANNEL_NUMEL - 1]. *)
Definition LA_stop_body (s : state) (i : Z) : state :=
  let s := perform (IC_reset i) s in
  perform (DMA_reset i) s.

Definition LA_stop (s : state) : response_t * state :=
  let s := perform CN_reset s in
  let s := perform (TMR_reset g_TIMER) s in
  let s := foldl LA_stop_body s (seqZ 0 CHANNEL_NUMEL) in
  (SUCCESS, s).


(** Interrupt dispatch: calling a registered callback. *)
Definition run_callback (cb : Callback) (channel : Z) (s : state) : state :=
  match cb with
  | cb_cleanup_callback => cleanup_callback channel s
  | cb_ic_callback => ic_callback channel s
  | cb_cn_callback => cn_callback channel s
  end.

End Driver.

(** ** Interrupts *)

(** Modelled from the spec: the interrupt dispatch of the peripheral
    drivers is not part of the sources.  An interrupt runs the callback
    armed on its source with the channel of the source, and does nothing
    when no callback is armed. *)
Definition IC_interrupt `{Platform} (channel : Z) (s : state) : state :=
  match hw_ic_irq (hw s) !! channel with
  | Some cb => run_callback cb channel s
  | None => s
  end.

Definition CN_interrupt `{Platform} (s : state) : state :=
  match hw_cn_irq (hw s) with
  | Some (pin, cb) => run_callback cb pin s
  | None => s
  end.

Definition DMA_interrupt `{Platform} (channel : Z) (s : state) : state :=
  match hw_dma_irq (hw s) !! channel with
  | Some cb => run_callback cb channel s
  | None => s
  end.

(** The completion callbacks of the channels [cs], run one after the
    other. *)
Definition complete_all (cs : list Z) (s : state) : state :=
  foldl (fun s c => cleanup_callback c s) s cs.

(** ** Vocabulary of the statements *)

Section Vocabulary.
Context `{Platform}.

(** The channel the source calls [CHANNEL_k]. *)
Definition channel_number (k : Z) : Z :=
  if k =? 1 then CHANNEL_1
  else if k =? 2 then CHANNEL_2
  else if k =? 3 then CHANNEL_3
  else CHANNEL_4.

(** Channels [k], [k-1], ..., [1]: descending channel-index order. *)
Definition descending (k : Z) : list Z :=
  channel_number <$> reverse (seqZ 1 k).

(** The calls of the trigger sequence when the counter of active channels
    is [k]; no Transfer Channel is started unless [1 <= k <= 4]. *)
Definition trigger_calls (k : Z) : list Call :=
  [TMR_set_period g_TIMER 1; TMR_start g_TIMER; PINS_get_la_states]
  ++ (DMA_start <$> (if decide (1 <= k <= 4) then descending k else []))
  ++ [TMR_set_period g_TIMER 0].

(** Region [i] of the sample buffer when it is shared by [n] channels:
    where it starts, as an index into [BUFFER], and its length. *)
Definition region_start (n i : Z) : Z := Z.quot (i * BUFFER_SIZE) n.
Definition region_size (n : Z) : Z := Z.quot BUFFER_SIZE n.

(** The calls that set up channel [i], and the calls of the whole loop of
    [capture]. *)
Definition channel_setup_calls (n events edge i : Z) : list Call :=
  [DMA_setup i events (BUFFER_plus (region_start n i)) DMA_SOURCE_IC;
   DMA_interrupt_enable i cb_cleanup_callback;
   IC_start i edge (timer2ictsel g_TIMER)].

Definition setup_calls (n events edge : Z) : list Call :=
  seqZ 0 n ≫= channel_setup_calls n events edge.

(** The state in which [capture] calls [configure_trigger]. *)
Definition armed (n events edge : Z) (s : state) : state :=
  foldl (capture_body n events edge) (set_g_num_channels n s) (seqZ 0 n).

(** The calls of [configure_trigger] when the counter of active channels
    is [k]. *)
Definition trigger_config_calls (k edge trigger_pin : Z) : list Call :=
  if trigger_pin =? CHANNEL_NONE then trigger_calls k
  else if edge =? EDGE_ANY then [CN_interrupt_enable trigger_pin cb_cn_callback]
  else [IC_interrupt_enable trigger_pin cb_ic_callback].

(** The calls that reset both units of channel [i], and the calls of
    [LA_stop]. *)
Definition channel_reset_calls (i : Z) : list Call :=
  [IC_reset i; DMA_reset i].

Definition stop_calls : list Call :=
  [CN_reset; TMR_reset g_TIMER] ++ (seqZ 0 CHANNEL_NUMEL ≫= channel_reset_calls).

(** The enumerators number the four channels from 0, the way the loops of
    [capture] and [LA_stop] do when they use their counter as a channel. *)
Definition channels_from_zero : Prop :=
  CHANNEL_1 = 0 /\ CHANNEL_2 = 1 /\ CHANNEL_3 = 2 /\ CHANNEL_4 = 3
  /\ CHANNEL_NUMEL = 4.

(** The enumerators of [Edge] are pairwise distinct. *)
Definition edges_distinct : Prop :=
  NoDup [EDGE_NONE; EDGE_ANY; EDGE_FALLING; EDGE_RISING].

(** A request that passes the validation of [LA_capture]. *)
Definition valid_request (num_channels edge : Z) : Prop :=
  1 <= num_channels <= CHANNEL_NUMEL /\ edge <> EDGE_NONE.

End Vocabulary.

(** The calls made on the way from state [s] to a later state [s']. *)
Definition calls_since (s s' : state) : list Call :=
  drop (length (calls s)) (calls s').

(** The calls that release the units of channel [c] on completion. *)
Definition channel_cleanup_calls (c : Z) : list Call :=
  [DMA_reset c; IC_reset c].

(** The Transfer Channel configurations of a log: channel, event count and
    destination of every [DMA_setup] call, in order. *)
Definition dma_setups (l : list Call) : list (Z * Z * address) :=
  omap (fun c => match c with
                 | DMA_setup ch n a _ => Some (ch, n, a)
                 | _ => None
                 end) l.

(** The Input Capture starts of a log: channel, edge and clock source of
    every [IC_start] call, in order. *)
Definition ic_starts (l : list Call) : list (Z * Z * IC_Timer) :=
  omap (fun c => match c with
                 | IC_start ch e clk => Some (ch, e, clk)
                 | _ => None
                 end) l.

(** Calls that arm a trigger interrupt, and calls of the trigger
    sequence. *)
Definition arms_ic (c : Call) : bool :=
  match c with IC_interrupt_enable _ _ => true | _ => false end.

Definition arms_cn (c : Call) : bool :=
  match c with CN_interrupt_enable _ _ => true | _ => false end.

Definition starts_capture (c : Call) : bool :=
  match c with
  | TMR_set_period _ _ | TMR_start _ | PINS_get_la_states | DMA_start _ => true
  | _ => false
  end.

(** How many times a log resets the shared timer. *)
Definition timer_resets (l : list Call) : nat :=
  length (filter (fun c => c = TMR_reset g_TIMER) l).

(** The resources a capture uses: the two globals and the peripherals. *)
Definition resources (s : state) : Z * Z * HW :=
  (g_num_channels s, g_initial_states s, hw s).

(** The per-channel units of channel [i] are idle. *)
Definition channel_idle (h : HW) (i : Z) : Prop :=
  hw_ic h !! i = None /\ hw_ic_irq h !! i = None
  /\ hw_dma h !! i = None /\ hw_dma_irq h !! i = None
  /\ i ∉ hw_dma_on h.

(** The Transfer Channels a log starts, in order. *)
Definition dma_starts (l : list Call) : list Z :=
  omap (fun c => match c with DMA_start ch => Some ch | _ => None end) l.

(** Modelled from the spec: the levels of the LA pins are an input of the
    system, read by [PINS_get_la_states]; [set_pins v] is the environment
    changing them to [v].  Nothing else changes and no call is made. *)
Definition set_pins (v : Z) (s : state) : state :=
  mkState (g_num_channels s) (g_initial_states s)
    (mkHW (hw_tmr (hw s)) (hw_ic (hw s)) (hw_ic_irq (hw s))
       (hw_cn_irq (hw s)) (hw_dma (hw s)) (hw_dma_irq (hw s))
       (hw_dma_on (hw s)) v)
    (calls s).

(** The completion interrupts of the channels [cs], one after the
    other. *)
Definition complete_interrupts `{Platform} (cs : list Z) (s : state) : state :=
  foldl (fun s c => DMA_interrupt c s) s cs.

(** The trigger source that [configure_trigger] chooses for a trigger
    channel: the call that arms it, the interrupt it raises, and the call
    with which its callback disarms it. *)
Definition arm_call `{Platform} (edge trigger_pin : Z) : Call :=
  if edge =? EDGE_ANY then CN_interrupt_enable trigger_pin cb_cn_callback
  else IC_interrupt_enable trigger_pin cb_ic_callback.

Definition trigger_interrupt `{Platform} (edge trigger_pin : Z)
    (s : state) : state :=
  if edge =? EDGE_ANY then CN_interrupt s else IC_interrupt trigger_pin s.

Definition disarm_call `{Platform} (edge trigger_pin : Z) : Call :=
  if edge =? EDGE_ANY then CN_reset else IC_interrupt_disable trigger_pin.

(** ** Examples *)

(** One admissible numbering of the enumerators, used in the examples
    below; the theorems hold for every numbering.  Channels are numbered
    from 0, the way the loops of [capture] and [LA_stop] number them, and
    the buffer holds the 10k timestamps the header of the file speaks
    of. *)
Definition pslab : Platform := {|
  CHANNEL_NONE := 5;
  CHANNEL_1 := 0;
  CHANNEL_2 := 1;
  CHANNEL_3 := 2;
  CHANNEL_4 := 3;
  CHANNEL_NUMEL := 4;
  EDGE_NONE := 0;
  EDGE_ANY := 1;
  EDGE_FALLING := 2;
  EDGE_RISING := 3;
  BUFFER_SIZE := 10000
|}.

(** All peripherals idle, pins LA1 and LA3 high. *)
Definition hw_idle : HW := mkHW ∅ ∅ ∅ None ∅ ∅ ∅ 5.

(** The state after start-up: the globals are zero-initialised. *)
Definition s_init : state := mkState 0 0 hw_idle [].

(** ** Basic facts about calls *)

Section Facts.
Context `{Platform}.

Lemma calls_perform c s : calls (perform c s) = calls s ++ [c].
Proof. reflexivity. Qed.

Lemma trigger_switch_calls s :
  calls (trigger_switch s)
  = calls s ++ (DMA_start <$> (if decide (1 <= g_num_channels s <= 4)
                               then descending (g_num_channels s) else [])).
Proof.
  unfold trigger_switch.
  destruct (decide (1 <= g_num_channels s <= 4)) as [Hk | Hk].
  - assert (g_num_channels s = 1 \/ g_num_channels s = 2
            \/ g_num_channels s = 3 \/ g_num_channels s = 4)
      as [-> | [-> | [-> | ->]]] by lia; cbn;
      unfold trigger_case_4, trigger_case_3, trigger_case_2, trigger_case_1;
      rewrite ?calls_perform, <- ?app_assoc; reflexivity.
  - repeat (case_match; [lia |]). cbn. by rewrite app_nil_r.
Qed.

Lemma trigger_switch_globals s :
  g_num_channels (trigger_switch s) = g_num_channels s
  /\ g_initial_states (trigger_switch s) = g_initial_states s.
Proof.
  unfold trigger_switch.
  repeat (case_match; [by split |]). by split.
Qed.

Lemma trigger_switch_hw s :
  hw_tmr (hw (trigger_switch s)) = hw_tmr (hw s)
  /\ hw_cn_irq (hw (trigger_switch s)) = hw_cn_irq (hw s)
  /\ hw_ic_irq (hw (trigger_switch s)) = hw_ic_irq (hw s).
Proof.
  unfold trigger_switch.
  repeat (case_match; [by repeat split |]). by repeat split.
Qed.

Lemma trigger_globals s :
  g_num_channels (trigger s) = g_num_channels s
  /\ g_initial_states (trigger s) = uint8 (hw_pins (hw s)).
Proof.
  unfold trigger. cbn.
  match goal with |- context [trigger_switch ?x] =>
    destruct (trigger_switch_globals x) as [-> ->] end.
  by split.
Qed.

Lemma trigger_tmr s : tmr_state (hw (trigger s)) g_TIMER = (0, true).
Proof.
  unfold trigger, tmr_state. cbn [perform hw hw_step hw_tmr].
  rewrite lookup_insert_eq. cbn [default from_option id].
  unfold tmr_state.
  match goal with |- context [trigger_switch ?x] =>
    destruct (trigger_switch_hw x) as (-> & _ & _) end.
  cbn [perform set_g_initial_states hw hw_step hw_tmr].
  by rewrite lookup_insert_eq.
Qed.

Lemma trigger_irqs s :
  hw_cn_irq (hw (trigger s)) = hw_cn_irq (hw s)
  /\ hw_ic_irq (hw (trigger s)) = hw_ic_irq (hw s).
Proof.
  unfold trigger. cbn [perform hw hw_step hw_cn_irq hw_ic_irq].
  match goal with |- context [trigger_switch ?x] =>
    destruct (trigger_switch_hw x) as (_ & -> & ->) end.
  by split.
Qed.

Lemma calls_trigger s :
  calls (trigger s) = calls s ++ trigger_calls (g_num_channels s).
Proof.
  unfold trigger, trigger_calls.
  rewrite calls_perform, trigger_switch_calls.
  cbn. rewrite <- !app_assoc. reflexivity.
Qed.

End Facts.

(** ** The trigger sequence *)

Section Trigger.
Context `{Platform}.

(** C1.  When the trigger fires in a capture session with [k] active
    channels ([1 <= k <= 4]), [trigger] makes exactly these calls, in this
    order: it sets the period of the shared timer to 1, the smallest
    nonzero value, and starts the timer; it reads the levels of the pins,
    which it stores in [g_initial_states]; it starts the Transfer Channels
    of channels [k], [k-1], ..., [1], in this descending order; and it sets
    the period of the timer back to 0, its free-running value.  The timer
    is then running with period 0, and the counter of active channels is
    unchanged.  When the enumerators number the channels from 0, the
    channels started are the channels [k-1], ..., [0], those that [capture]
    sets up for [k] channels. *)
Theorem trigger_sequence (s : state) (k : Z) :
  g_num_channels s = k ->
  1 <= k <= 4 ->
  calls (trigger s)
  = calls s
    ++ [TMR_set_period g_TIMER 1; TMR_start g_TIMER; PINS_get_la_states]
    ++ (DMA_start <$> descending k)
    ++ [TMR_set_period g_TIMER 0]
  /\ g_initial_states (trigger s) = uint8 (hw_pins (hw s))
  /\ g_num_channels (trigger s) = k
  /\ tmr_state (hw (trigger s)) g_TIMER = (0, true)
  /\ (channels_from_zero -> descending k = reverse (seqZ 0 k)).
Proof.
  intros Hs Hk. subst k.
  destruct (trigger_globals s) as [Hn Hi].
  split; [| rewrite Hn, Hi, trigger_tmr; repeat split].
  - rewrite calls_trigger. unfold trigger_calls.
    by rewrite decide_True.
  - intros (H1 & H2 & H3 & H4 & _).
    assert (g_num_channels s = 1 \/ g_num_channels s = 2
            \/ g_num_channels s = 3 \/ g_num_channels s = 4)
      as [-> | [-> | [-> | ->]]] by lia;
      unfold descending; cbn; unfold channel_number; cbn;
      by rewrite ?H1, ?H2, ?H3, ?H4.
Qed.

End Trigger.

(** ** Completion of a channel *)

Section Cleanup.
Context `{Platform}.

Lemma cleanup_callback_counter channel s :
  g_num_channels (cleanup_callback channel s) = uint8 (g_num_channels s - 1).
Proof. unfold cleanup_callback. cbn. by case_match. Qed.

Lemma cleanup_callback_calls channel s :
  calls (cleanup_callback channel s)
  = calls s ++ channel_cleanup_calls channel
    ++ (if decide (uint8 (g_num_channels s - 1) = 0)
        then [TMR_reset g_TIMER] else []).
Proof.
  unfold cleanup_callback. cbn.
  destruct (Z.eqb_spec (uint8 (g_num_channels s - 1)) 0) as [E | E].
  - rewrite decide_True by done. cbn. by rewrite <- !app_assoc.
  - rewrite decide_False by done. cbn. by rewrite <- !app_assoc.
Qed.

Lemma uint8_pred g : 1 <= g <= 255 -> uint8 (g - 1) = g - 1.
Proof. intros Hg. unfold uint8. apply Z.mod_small. lia. Qed.

Lemma timer_resets_app l1 l2 :
  timer_resets (l1 ++ l2) = (timer_resets l1 + timer_resets l2)%nat.
Proof. unfold timer_resets. by rewrite filter_app, length_app. Qed.

Lemma timer_resets_cleanup_calls cs :
  timer_resets (cs ≫= channel_cleanup_calls) = 0%nat.
Proof.
  induction cs as [| c cs IH]; [done |].
  cbn [mbind list_bind]. rewrite timer_resets_app, IH.
  unfold timer_resets, channel_cleanup_calls.
  rewrite !filter_cons_False by done. done.
Qed.

Lemma calls_since_app s s' l :
  calls s' = calls s ++ l -> calls_since s s' = l.
Proof. intros E. unfold calls_since. by rewrite E, drop_app_length. Qed.

(** All the calls of a run of completions: each completion resets the two
    units of its channel, and the timer is reset after the completion that
    brings the counter to zero. *)
Lemma complete_all_run cs s :
  0 <= g_num_channels s <= 255 ->
  Z.of_nat (length cs) <= g_num_channels s ->
  g_num_channels (complete_all cs s)
  = g_num_channels s - Z.of_nat (length cs)
  /\ calls (complete_all cs s)
     = calls s ++ (cs ≫= channel_cleanup_calls)
       ++ (if decide (cs <> [] /\ Z.of_nat (length cs) = g_num_channels s)
           then [TMR_reset g_TIMER] else []).
Proof.
  revert s. induction cs as [| c cs IH]; intros s Hg Hlen.
  - cbn. split; [lia |]. rewrite decide_False by tauto. by rewrite app_nil_r.
  - cbn [length] in Hlen. cbn [complete_all foldl].
    fold (complete_all cs (cleanup_callback c s)).
    pose proof (cleanup_callback_counter c s) as Hc.
    rewrite uint8_pred in Hc by lia.
    destruct (IH (cleanup_callback c s)) as [IHn IHc]; [lia | lia |].
    split; [rewrite IHn, Hc; cbn [length]; lia |].
    rewrite IHc, cleanup_callback_calls, uint8_pred, Hc by lia.
    cbn [mbind list_bind length]. rewrite <- !app_assoc.
    do 2 f_equal.
    clear IH IHn IHc Hc.
    destruct cs as [| c' cs]; cbn [length] in *.
    + cbn. repeat case_decide; try done;
        exfalso; intuition (try congruence; try lia).
    + rewrite (decide_False (P := _ - 1 = 0)) by lia.
      cbn [app].
      repeat case_decide; try done;
        exfalso; intuition (try congruence; try lia).
Qed.

(** C3.  A completion callback resets the Transfer Channel and the Input
    Capture unit of its own channel and of no other, and decrements the
    counter of active channels by one; it resets the shared timer exactly
    when the counter has reached zero.  So in a session with [n] active
    channels in which all [n] channels complete, in any order, the timer is
    not reset while fewer than [n] channels have completed, and it is
    reset exactly once, as the last call, by the last completion. *)
Theorem cleanup_callback_session (channel : Z) (s : state) (cs : list Z) :
  1 <= g_num_channels s <= 255 ->
  Z.of_nat (length cs) = g_num_channels s ->
  (calls (cleanup_callback channel s)
   = calls s ++ [DMA_reset channel; IC_reset channel]
     ++ (if decide (g_num_channels (cleanup_callback channel s) = 0)
         then [TMR_reset g_TIMER] else [])
   /\ g_num_channels (cleanup_callback channel s) = g_num_channels s - 1)
  /\ (forall m, (m < length cs)%nat ->
        timer_resets (calls_since s (complete_all (take m cs) s)) = 0%nat)
  /\ timer_resets (calls_since s (complete_all cs s)) = 1%nat
  /\ last (calls (complete_all cs s)) = Some (TMR_reset g_TIMER)
  /\ g_num_channels (complete_all cs s) = 0.
Proof.
  intros Hg Hlen. split; [| split; [| split; [| split]]].
  - rewrite cleanup_callback_calls, cleanup_callback_counter.
    rewrite uint8_pred by lia. done.
  - intros m Hm.
    destruct (complete_all_run (take m cs) s) as [_ Hc];
      [lia | rewrite length_take; lia |].
    rewrite (calls_since_app _ _ _ Hc), timer_resets_app.
    rewrite timer_resets_cleanup_calls.
    rewrite decide_False; [done |].
    rewrite length_take. lia.
  - destruct (complete_all_run cs s) as [_ Hc]; [lia | lia |].
    rewrite (calls_since_app _ _ _ Hc), timer_resets_app.
    rewrite timer_resets_cleanup_calls.
    rewrite decide_True; [done |].
    split; [| done]. destruct cs; [cbn in Hlen; lia | done].
  - destruct (complete_all_run cs s) as [_ Hc]; [lia | lia |].
    rewrite Hc, decide_True.
    + by rewrite !app_assoc, last_snoc.
    + split; [| done]. destruct cs; [cbn in Hlen; lia | done].
  - destruct (complete_all_run cs s) as [Hn _]; [lia | lia |]. lia.
Qed.

(** C10.  The decrement of the counter in the completion callback is
    8-bit arithmetic without a guard: run with the counter at zero, the
    callback leaves the counter at 255 and makes only the two reset calls
    of its channel, so the shared timer is not reset and its state is
    unchanged. *)
Theorem cleanup_callback_wraps (channel : Z) (s : state) :
  g_num_channels s = 0 ->
  g_num_channels (cleanup_callback channel s) = 255
  /\ calls (cleanup_callback channel s)
     = calls s ++ [DMA_reset channel; IC_reset channel]
  /\ timer_resets (calls_since s (cleanup_callback channel s)) = 0%nat
  /\ hw_tmr (hw (cleanup_callback channel s)) = hw_tmr (hw s).
Proof.
  intros Hg.
  pose proof (cleanup_callback_calls channel s) as Hc.
  rewrite Hg in Hc. cbn in Hc.
  split; [by rewrite cleanup_callback_counter, Hg |].
  split; [done |].
  split; [by rewrite (calls_since_app _ _ _ Hc) |].
  unfold cleanup_callback. cbn. rewrite Hg. done.
Qed.

End Cleanup.

(** ** Starting a capture *)

Section Capture.
Context `{Platform}.

(** The loop of [capture] makes the set-up calls of its channels in order
    and touches neither the globals nor the trigger interrupts. *)
Lemma capture_loop n events edge l s :
  let s' := foldl (capture_body n events edge) s l in
  calls s' = calls s ++ (l ≫= channel_setup_calls n events edge)
  /\ g_num_channels s' = g_num_channels s
  /\ g_initial_states s' = g_initial_states s
  /\ hw_pins (hw s') = hw_pins (hw s)
  /\ hw_cn_irq (hw s') = hw_cn_irq (hw s)
  /\ hw_ic_irq (hw s') = hw_ic_irq (hw s).
Proof.
  revert s. induction l as [| i l IH]; intros s; cbn zeta.
  - cbn. by rewrite app_nil_r.
  - cbn [foldl]. destruct (IH (capture_body n events edge s i))
      as (-> & -> & -> & -> & -> & ->).
    unfold capture_body. cbn. rewrite <- !app_assoc. done.
Qed.

Lemma armed_facts n events edge s :
  calls (armed n events edge s) = calls s ++ setup_calls n events edge
  /\ g_num_channels (armed n events edge s) = n
  /\ g_initial_states (armed n events edge s) = g_initial_states s
  /\ hw_pins (hw (armed n events edge s)) = hw_pins (hw s)
  /\ hw_cn_irq (hw (armed n events edge s)) = hw_cn_irq (hw s)
  /\ hw_ic_irq (hw (armed n events edge s)) = hw_ic_irq (hw s).
Proof. apply (capture_loop n events edge (seqZ 0 n) (set_g_num_channels n s)). Qed.

Lemma capture_unfold n events edge trigger_pin s :
  capture n events edge trigger_pin s
  = configure_trigger edge trigger_pin (armed n events edge s).
Proof. reflexivity. Qed.

Lemma LA_capture_valid n events edge trigger_pin s :
  valid_request n edge ->
  LA_capture n events edge trigger_pin s
  = (SUCCESS, capture n events edge trigger_pin s).
Proof.
  intros [Hn He]. unfold LA_capture.
  rewrite (proj2 (Z.eqb_neq n 0)) by lia.
  destruct (Z.gtb_spec n CHANNEL_NUMEL); [lia |].
  by rewrite (proj2 (Z.eqb_neq edge EDGE_NONE)).
Qed.

Lemma configure_trigger_calls edge trigger_pin s :
  calls (configure_trigger edge trigger_pin s)
  = calls s ++ trigger_config_calls (g_num_channels s) edge trigger_pin.
Proof.
  unfold configure_trigger, trigger_config_calls.
  repeat case_match; [apply calls_trigger | done | done].
Qed.

Lemma capture_calls n events edge trigger_pin s :
  calls (capture n events edge trigger_pin s)
  = calls s ++ setup_calls n events edge
    ++ trigger_config_calls n edge trigger_pin.
Proof.
  rewrite capture_unfold, configure_trigger_calls.
  destruct (armed_facts n events edge s) as (-> & -> & _).
  by rewrite <- app_assoc.
Qed.

Lemma dma_setups_app l1 l2 : dma_setups (l1 ++ l2) = dma_setups l1 ++ dma_setups l2.
Proof. apply omap_app. Qed.

Lemma ic_starts_app l1 l2 : ic_starts (l1 ++ l2) = ic_starts l1 ++ ic_starts l2.
Proof. apply omap_app. Qed.

Lemma dma_setups_setup_calls n events edge l :
  dma_setups (l ≫= channel_setup_calls n events edge)
  = (fun i => (i, events, BUFFER_plus (region_start n i))) <$> l.
Proof.
  induction l as [| i l IH]; [done |].
  cbn [mbind list_bind fmap list_fmap].
  rewrite dma_setups_app. fold (l ≫= channel_setup_calls n events edge).
  rewrite IH. done.
Qed.

Lemma ic_starts_setup_calls n events edge l :
  ic_starts (l ≫= channel_setup_calls n events edge)
  = (fun i => (i, edge, timer2ictsel g_TIMER)) <$> l.
Proof.
  induction l as [| i l IH]; [done |].
  cbn [mbind list_bind fmap list_fmap].
  rewrite ic_starts_app. fold (l ≫= channel_setup_calls n events edge).
  rewrite IH. done.
Qed.

Lemma trigger_config_no_setup k edge trigger_pin :
  dma_setups (trigger_config_calls k edge trigger_pin) = []
  /\ ic_starts (trigger_config_calls k edge trigger_pin) = [].
Proof.
  unfold trigger_config_calls, trigger_calls.
  repeat case_match; try done;
    rewrite dma_setups_app, ic_starts_app, dma_setups_app, ic_starts_app; cbn;
    split; rewrite app_nil_r;
    match goal with |- _ (_ <$> ?l) = _ => induction l; [done | by cbn] end.
Qed.

End Capture.

(** ** Regions of the sample buffer *)

Section Regions.
Context `{Platform}.

Lemma region_start_div n i :
  0 < n -> 0 <= i -> 0 <= BUFFER_SIZE ->
  region_start n i = (i * BUFFER_SIZE) `div` n.
Proof. intros. unfold region_start. apply Z.quot_div_nonneg; nia. Qed.

Lemma region_size_div n :
  0 < n -> 0 <= BUFFER_SIZE -> region_size n = BUFFER_SIZE `div` n.
Proof. intros. unfold region_size. apply Z.quot_div_nonneg; lia. Qed.

Lemma region_start_0 n : region_start n 0 = 0.
Proof. unfold region_start. rewrite Z.mul_0_l. by destruct n. Qed.

Lemma region_start_end n : 0 < n -> region_start n n = BUFFER_SIZE.
Proof. intros. unfold region_start. rewrite Z.mul_comm. apply Z.quot_mul. lia. Qed.

(** The start of the next region is at least one region length away. *)
Lemma region_start_succ n i :
  0 < n -> 0 <= i -> 0 <= BUFFER_SIZE ->
  region_start n i + region_size n <= region_start n (i + 1).
Proof.
  intros Hn Hi Hb.
  rewrite !region_start_div, region_size_div by lia.
  apply Z.div_le_lower_bound; [lia |].
  pose proof (Z.mul_div_le (i * BUFFER_SIZE) n Hn).
  pose proof (Z.mul_div_le BUFFER_SIZE n Hn).
  lia.
Qed.

Lemma region_start_mono n i j :
  0 < n -> 0 <= i <= j -> 0 <= BUFFER_SIZE ->
  region_start n i <= region_start n j.
Proof.
  intros Hn Hij Hb. rewrite !region_start_div by lia.
  apply Z.div_le_mono; [lia | nia].
Qed.

Lemma regions_disjoint n i j :
  0 < n -> 0 <= i -> i < j -> 0 <= BUFFER_SIZE ->
  region_start n i + region_size n <= region_start n j.
Proof.
  intros Hn Hi Hij Hb.
  etrans; [by apply region_start_succ |].
  apply region_start_mono; lia.
Qed.

(** When the buffer length leaves a remainder of at most 1, the regions
    follow one another without a gap. *)
Lemma regions_contiguous n i :
  0 < n -> 0 <= i < n -> 0 <= BUFFER_SIZE -> BUFFER_SIZE `mod` n <= 1 ->
  region_start n i = i * region_size n.
Proof.
  intros Hn Hi Hb Hr.
  rewrite region_start_div, region_size_div by lia.
  pose proof (Z.div_mod BUFFER_SIZE n ltac:(lia)) as E.
  pose proof (Z.mod_pos_bound BUFFER_SIZE n Hn) as Hm.
  symmetry. apply Z.div_unique with (r := i * (BUFFER_SIZE `mod` n)); nia.
Qed.

End Regions.

(** ** Requests *)

Section Requests.
Context `{Platform}.

Lemma configure_trigger_counter edge trigger_pin s :
  g_num_channels (configure_trigger edge trigger_pin s) = g_num_channels s.
Proof.
  unfold configure_trigger.
  repeat case_match; [apply trigger_globals | done | done].
Qed.

Lemma LA_capture_calls n events edge trigger_pin s :
  valid_request n edge ->
  calls_since s (snd (LA_capture n events edge trigger_pin s))
  = setup_calls n events edge ++ trigger_config_calls n edge trigger_pin.
Proof.
  intros Hv. rewrite LA_capture_valid by done.
  apply calls_since_app, capture_calls.
Qed.

Lemma LA_capture_dma_setups n events edge trigger_pin s :
  valid_request n edge ->
  dma_setups (calls_since s (snd (LA_capture n events edge trigger_pin s)))
  = (fun i => (i, events, BUFFER_plus (region_start n i))) <$> seqZ 0 n.
Proof.
  intros Hv. rewrite LA_capture_calls, dma_setups_app by done.
  unfold setup_calls. rewrite dma_setups_setup_calls.
  destruct (trigger_config_no_setup n edge trigger_pin) as [-> _].
  apply app_nil_r.
Qed.

(** C2 (amended).  A valid request ([1 <= num_channels <= 4], edge not
    NONE) is accepted, sets the counter of active channels to
    [num_channels], and configures the Transfer Channel of each channel
    [i < num_channels], once and in ascending order, to move [events]
    events, the requested count as it is and not divided by the number of
    channels, to the start of region [i], which is at index
    [i * BUFFER_SIZE / num_channels] of the buffer.  The regions, each
    [BUFFER_SIZE / num_channels] long, lie inside the buffer and do not
    overlap, and they follow one another without a gap when
    [BUFFER_SIZE mod num_channels <= 1].  For 2 channels and 100 events each
    of the two channels is configured for 100 events. *)
Theorem capture_partitions (n events edge trigger_pin : Z) (s : state) :
  CHANNEL_NUMEL = 4 ->
  1 <= n <= 4 ->
  edge <> EDGE_NONE ->
  0 < BUFFER_SIZE ->
  let r := LA_capture n events edge trigger_pin s in
  fst r = SUCCESS
  /\ g_num_channels (snd r) = n
  /\ dma_setups (calls_since s (snd r))
     = (fun i => (i, events, BUFFER_plus (region_start n i))) <$> seqZ 0 n
  /\ region_start n 0 = 0
  /\ (forall i j, 0 <= i -> i < j -> j < n ->
        region_start n i + region_size n <= region_start n j)
  /\ (forall i, 0 <= i < n -> region_start n i + region_size n <= BUFFER_SIZE)
  /\ (BUFFER_SIZE `mod` n <= 1 ->
      forall i, 0 <= i < n -> region_start n i = i * region_size n).
Proof.
  intros Hc Hn He Hb r.
  assert (valid_request n edge) as Hv by (split; [lia | done]).
  subst r. split; [by rewrite LA_capture_valid |].
  split.
  { rewrite LA_capture_valid by done. cbn [snd].
    rewrite capture_unfold, configure_trigger_counter.
    by destruct (armed_facts n events edge s) as (_ & -> & _). }
  split; [by apply LA_capture_dma_setups |].
  split; [apply region_start_0 |].
  split; [intros; apply regions_disjoint; lia |].
  split.
  - intros i Hi.
    etrans; [apply region_start_succ; lia |].
    etrans; [apply (region_start_mono n (i + 1) n); lia |].
    by rewrite region_start_end by lia.
  - intros Hr i Hi. apply regions_contiguous; lia.
Qed.

(** C4.  A request with no channel, with more than four channels, or with
    edge NONE is answered with an argument error and leaves the state as it
    was: no call to a peripheral is logged, and the globals and the
    peripherals are unchanged. *)
Theorem LA_capture_rejects (n events edge trigger_pin : Z) (s : state) :
  CHANNEL_NUMEL = 4 ->
  n = 0 \/ 4 < n \/ edge = EDGE_NONE ->
  LA_capture n events edge trigger_pin s = (ARGUMENT_ERROR, s).
Proof.
  intros Hc Hbad. unfold LA_capture.
  destruct (Z.eqb_spec n 0); [done |].
  destruct (Z.gtb_spec n CHANNEL_NUMEL); [done |].
  destruct (Z.eqb_spec edge EDGE_NONE); [done |].
  lia.
Qed.

(** C8.  The event count is not validated.  For every count from 0 to
    65535 a request that is valid otherwise is accepted, and the set-up call
    of each active channel carries that count and the start of the region
    of the channel.  In particular, whenever a region is shorter than 65535
    elements there is a count that is accepted although it exceeds the
    length of the region. *)
Theorem capture_events_unchecked (n events edge trigger_pin : Z) (s : state) :
  valid_request n edge ->
  0 <= events <= 65535 ->
  (fst (LA_capture n events edge trigger_pin s) = SUCCESS
   /\ forall i, 0 <= i < n ->
        DMA_setup i events (BUFFER_plus (region_start n i)) DMA_SOURCE_IC
        ∈ calls_since s (snd (LA_capture n events edge trigger_pin s)))
  /\ (region_size n < 65535 ->
      exists big, 0 <= big <= 65535 /\ region_size n < big
        /\ fst (LA_capture n big edge trigger_pin s) = SUCCESS
        /\ forall i, 0 <= i < n ->
             DMA_setup i big (BUFFER_plus (region_start n i)) DMA_SOURCE_IC
             ∈ calls_since s (snd (LA_capture n big edge trigger_pin s))).
Proof.
  intros Hv Hev.
  assert (forall ev, fst (LA_capture n ev edge trigger_pin s) = SUCCESS
    /\ forall i, 0 <= i < n ->
        DMA_setup i ev (BUFFER_plus (region_start n i)) DMA_SOURCE_IC
        ∈ calls_since s (snd (LA_capture n ev edge trigger_pin s))) as Hall.
  { intros ev. split; [by rewrite LA_capture_valid |].
    intros i Hi. rewrite LA_capture_calls by done.
    apply elem_of_app. left. unfold setup_calls.
    apply list_elem_of_bind. exists i. split.
    - unfold channel_setup_calls. by left.
    - apply elem_of_seqZ. lia. }
  split; [apply Hall |].
  intros Hsmall. exists 65535.
  split; [lia |]. split; [done |]. apply Hall.
Qed.

(** C9.  Of all byte values of the edge only [EDGE_NONE] is rejected.  With
    a valid channel count, the request is answered with an argument error
    exactly when the edge is [EDGE_NONE]; every other byte, whether it is
    an enumerator of [Edge] or not, is accepted and is passed as it is to
    the start of the Input Capture unit of every active channel. *)
Theorem capture_edge_unchecked (n events edge trigger_pin : Z) (s : state) :
  1 <= n <= CHANNEL_NUMEL ->
  0 <= edge <= 255 ->
  let r := LA_capture n events edge trigger_pin s in
  (fst r = ARGUMENT_ERROR <-> edge = EDGE_NONE)
  /\ (edge <> EDGE_NONE ->
      fst r = SUCCESS
      /\ ic_starts (calls_since s (snd r))
         = (fun i => (i, edge, timer2ictsel g_TIMER)) <$> seqZ 0 n).
Proof.
  intros Hn Hbyte r. subst r. split.
  - unfold LA_capture.
    rewrite (proj2 (Z.eqb_neq n 0)) by lia.
    destruct (Z.gtb_spec n CHANNEL_NUMEL); [lia |].
    destruct (Z.eqb_spec edge EDGE_NONE); cbn; split; done.
  - intros He.
    assert (valid_request n edge) as Hv by done.
    split; [by rewrite LA_capture_valid |].
    rewrite LA_capture_calls, ic_starts_app by done.
    unfold setup_calls. rewrite ic_starts_setup_calls.
    destruct (trigger_config_no_setup n edge trigger_pin) as [_ ->].
    apply app_nil_r.
Qed.

End Requests.

(** ** Choosing the trigger *)

Section TriggerChoice.
Context `{Platform}.

Lemma setup_calls_inert n events edge :
  Forall (fun c => arms_ic c = false /\ arms_cn c = false
                   /\ starts_capture c = false)
    (setup_calls n events edge).
Proof.
  unfold setup_calls. apply Forall_bind, Forall_forall. intros i _.
  unfold channel_setup_calls. repeat constructor.
Qed.

Lemma trigger_calls_arm_nothing k :
  Forall (fun c => arms_ic c = false /\ arms_cn c = false) (trigger_calls k).
Proof.
  unfold trigger_calls. repeat (apply Forall_app; split).
  - repeat constructor.
  - apply Forall_fmap, Forall_forall. by intros.
  - repeat constructor.
Qed.

(** C7.  Each of the two callbacks of a deferred trigger first disarms the
    interrupt that called it (the Input Capture interrupt of its channel,
    or Change Notification) and then runs the whole trigger sequence.  When
    the callback returns its interrupt is disarmed, so that the same
    interrupt occurring once more runs nothing: the trigger is one-shot. *)
Theorem trigger_callbacks_one_shot (channel : Z) (s : state) :
  (calls (ic_callback channel s)
   = calls s ++ IC_interrupt_disable channel
              :: trigger_calls (g_num_channels s)
   /\ hw_ic_irq (hw (ic_callback channel s)) !! channel = None
   /\ IC_interrupt channel (ic_callback channel s) = ic_callback channel s)
  /\ (calls (cn_callback channel s)
      = calls s ++ CN_reset :: trigger_calls (g_num_channels s)
      /\ hw_cn_irq (hw (cn_callback channel s)) = None
      /\ CN_interrupt (cn_callback channel s) = cn_callback channel s).
Proof.
  assert (hw_ic_irq (hw (ic_callback channel s)) !! channel = None) as Hic.
  { unfold ic_callback.
    destruct (trigger_irqs (perform (IC_interrupt_disable channel) s))
      as [_ ->].
    cbn [perform hw hw_step hw_ic_irq]. apply lookup_delete_eq. }
  assert (hw_cn_irq (hw (cn_callback channel s)) = None) as Hcn.
  { unfold cn_callback.
    by destruct (trigger_irqs (perform CN_reset s)) as [-> _]. }
  split; (split; [| split]); try done.
  - unfold ic_callback. rewrite calls_trigger, calls_perform.
    by rewrite <- app_assoc.
  - unfold IC_interrupt. by rewrite Hic.
  - unfold cn_callback. rewrite calls_trigger, calls_perform.
    by rewrite <- app_assoc.
  - unfold CN_interrupt. by rewrite Hcn.
Qed.

(** C5.  The trigger of a valid request is chosen as the decision table
    says.  With no trigger channel the trigger sequence runs inside
    [LA_capture], after the set-up calls, and no interrupt is armed.  With a
    trigger channel and edge ANY the only call after the set-up calls arms
    Change Notification on that channel with [cn_callback]: no Input
    Capture interrupt is armed, no step of the trigger sequence is made,
    and a Change Notification interrupt then runs [cn_callback].  With a
    trigger channel and edge RISING or FALLING the only call after the
    set-up calls arms the Input Capture interrupt of that channel with
    [ic_callback]: Change Notification is not armed, no step of the trigger
    sequence is made, and that interrupt then runs [ic_callback]. *)
Theorem trigger_decision_table (n events edge trigger_pin : Z) (s : state) :
  valid_request n edge ->
  edges_distinct ->
  let s' := snd (LA_capture n events edge trigger_pin s) in
  (trigger_pin = CHANNEL_NONE ->
     calls_since s s' = setup_calls n events edge ++ trigger_calls n
     /\ g_initial_states s' = uint8 (hw_pins (hw s))
     /\ Forall (fun c => arms_ic c = false /\ arms_cn c = false)
          (calls_since s s'))
  /\ (trigger_pin <> CHANNEL_NONE -> edge = EDGE_ANY ->
        calls_since s s'
        = setup_calls n events edge
          ++ [CN_interrupt_enable trigger_pin cb_cn_callback]
        /\ Forall (fun c => arms_ic c = false /\ starts_capture c = false)
             (calls_since s s')
        /\ CN_interrupt s' = cn_callback trigger_pin s')
  /\ (trigger_pin <> CHANNEL_NONE ->
      edge = EDGE_RISING \/ edge = EDGE_FALLING ->
        calls_since s s'
        = setup_calls n events edge
          ++ [IC_interrupt_enable trigger_pin cb_ic_callback]
        /\ Forall (fun c => arms_cn c = false /\ starts_capture c = false)
             (calls_since s s')
        /\ IC_interrupt trigger_pin s' = ic_callback trigger_pin s').
Proof.
  intros Hv Hd s'.
  pose proof (LA_capture_calls n events edge trigger_pin s Hv) as Hcalls.
  fold s' in Hcalls.
  assert (s' = configure_trigger edge trigger_pin (armed n events edge s))
    as Hs' by (subst s'; by rewrite LA_capture_valid).
  pose proof (setup_calls_inert n events edge) as Hinert.
  split; [| split].
  - intros Hnone. rewrite Hcalls. unfold trigger_config_calls.
    rewrite (proj2 (Z.eqb_eq _ _) Hnone).
    split; [done |]. split.
    + rewrite Hs'. unfold configure_trigger.
      rewrite (proj2 (Z.eqb_eq _ _) Hnone).
      destruct (trigger_globals (armed n events edge s)) as [_ ->].
      by destruct (armed_facts n events edge s) as (_ & _ & _ & -> & _).
    + apply Forall_app. split.
      * eapply Forall_impl; [exact Hinert |]. cbn. tauto.
      * apply trigger_calls_arm_nothing.
  - intros Hset Hany. rewrite Hcalls. unfold trigger_config_calls.
    rewrite (proj2 (Z.eqb_neq _ _) Hset), (proj2 (Z.eqb_eq _ _) Hany).
    split; [done |]. split.
    + apply Forall_app. split.
      * eapply Forall_impl; [exact Hinert |]. cbn. tauto.
      * repeat constructor.
    + rewrite Hs'. unfold configure_trigger.
      rewrite (proj2 (Z.eqb_neq _ _) Hset), (proj2 (Z.eqb_eq _ _) Hany).
      reflexivity.
  - intros Hset Hedge.
    assert (edge <> EDGE_ANY) as Hne.
    { unfold edges_distinct in Hd. rewrite !NoDup_cons in Hd.
      destruct Hd as (_ & Hany & _).
      intros ->. apply Hany. destruct Hedge as [<- | <-]; set_solver. }
    rewrite Hcalls. unfold trigger_config_calls.
    rewrite (proj2 (Z.eqb_neq _ _) Hset), (proj2 (Z.eqb_neq _ _) Hne).
    split; [done |]. split.
    + apply Forall_app. split.
      * eapply Forall_impl; [exact Hinert |]. cbn. tauto.
      * repeat constructor.
    + rewrite Hs'. unfold configure_trigger.
      rewrite (proj2 (Z.eqb_neq _ _) Hset), (proj2 (Z.eqb_neq _ _) Hne).
      unfold IC_interrupt. cbn [perform hw hw_step hw_ic_irq].
      by rewrite lookup_insert_eq.
Qed.

End TriggerChoice.

(** ** Stopping *)

Section Stop.
Context `{Platform}.

Lemma LA_stop_calls s :
  calls (snd (LA_stop s)) = calls s ++ stop_calls.
Proof.
  unfold LA_stop, stop_calls. cbn [snd].
  generalize (seqZ 0 CHANNEL_NUMEL). intros l.
  assert (forall s0, calls (foldl LA_stop_body s0 l)
                     = calls s0 ++ (l ≫= channel_reset_calls)) as Hloop.
  { induction l as [| i l IH]; intros s0; cbn [foldl].
    - cbn. by rewrite app_nil_r.
    - rewrite IH. cbn. by rewrite <- !app_assoc. }
  rewrite Hloop. cbn. by rewrite <- !app_assoc.
Qed.

Lemma LA_stop_hw s :
  CHANNEL_NUMEL = 4 ->
  hw (snd (LA_stop s))
  = mkHW (delete g_TIMER (hw_tmr (hw s)))
      (delete 3 (delete 2 (delete 1 (delete 0 (hw_ic (hw s))))))
      (delete 3 (delete 2 (delete 1 (delete 0 (hw_ic_irq (hw s))))))
      None
      (delete 3 (delete 2 (delete 1 (delete 0 (hw_dma (hw s))))))
      (delete 3 (delete 2 (delete 1 (delete 0 (hw_dma_irq (hw s))))))
      (hw_dma_on (hw s) ∖ {[0]} ∖ {[1]} ∖ {[2]} ∖ {[3]})
      (hw_pins (hw s)).
Proof.
  intros Hc. unfold LA_stop. rewrite Hc.
  change (seqZ 0 4) with [0; 1; 2; 3]. reflexivity.
Qed.

Lemma LA_stop_globals s :
  g_num_channels (snd (LA_stop s)) = g_num_channels s
  /\ g_initial_states (snd (LA_stop s)) = g_initial_states s.
Proof.
  unfold LA_stop. cbn [snd].
  generalize (seqZ 0 CHANNEL_NUMEL). intros l.
  assert (forall s0, g_num_channels (foldl LA_stop_body s0 l) = g_num_channels s0
            /\ g_initial_states (foldl LA_stop_body s0 l) = g_initial_states s0)
    as Hloop.
  { induction l as [| i l IH]; intros s0; cbn [foldl]; [done |].
    destruct (IH (LA_stop_body s0 i)) as [-> ->]. done. }
  by destruct (Hloop (perform (TMR_reset g_TIMER) (perform CN_reset s)))
    as [-> ->].
Qed.

(** C6.  [LA_stop] answers success from every state.  Whatever was active,
    it makes the same calls: it disarms Change Notification, resets the
    shared timer, and resets the Input Capture unit and the Transfer
    Channel of each of the four channels.  Afterwards Change Notification
    is disarmed, the timer is idle and the units of all four channels are
    idle; the two globals are not touched.  A second [LA_stop] makes the
    same calls again and leaves the globals and the peripherals exactly as
    the first left them. *)
Theorem LA_stop_resets_all (s : state) :
  channels_from_zero ->
  let s1 := snd (LA_stop s) in
  let s2 := snd (LA_stop s1) in
  fst (LA_stop s) = SUCCESS
  /\ calls_since s s1
     = [CN_reset; TMR_reset g_TIMER;
        IC_reset CHANNEL_1; DMA_reset CHANNEL_1;
        IC_reset CHANNEL_2; DMA_reset CHANNEL_2;
        IC_reset CHANNEL_3; DMA_reset CHANNEL_3;
        IC_reset CHANNEL_4; DMA_reset CHANNEL_4]
  /\ hw_cn_irq (hw s1) = None
  /\ tmr_state (hw s1) g_TIMER = (0, false)
  /\ (forall k, 1 <= k <= 4 -> channel_idle (hw s1) (channel_number k))
  /\ g_num_channels s1 = g_num_channels s
  /\ g_initial_states s1 = g_initial_states s
  /\ fst (LA_stop s1) = SUCCESS
  /\ calls_since s1 s2 = calls_since s s1
  /\ resources s2 = resources s1.
Proof.
  intros (H1 & H2 & H3 & H4 & Hc) s1 s2.
  assert (stop_calls
          = [CN_reset; TMR_reset g_TIMER;
             IC_reset CHANNEL_1; DMA_reset CHANNEL_1;
             IC_reset CHANNEL_2; DMA_reset CHANNEL_2;
             IC_reset CHANNEL_3; DMA_reset CHANNEL_3;
             IC_reset CHANNEL_4; DMA_reset CHANNEL_4]) as Hstop.
  { unfold stop_calls. rewrite Hc, H1, H2, H3, H4. reflexivity. }
  pose proof (LA_stop_hw s Hc) as Hhw1. fold s1 in Hhw1.
  pose proof (LA_stop_hw s1 Hc) as Hhw2. fold s2 in Hhw2.
  destruct (LA_stop_globals s) as [Hn1 Hi1]. fold s1 in Hn1, Hi1.
  destruct (LA_stop_globals s1) as [Hn2 Hi2]. fold s2 in Hn2, Hi2.
  split; [done |].
  split; [rewrite <- Hstop; apply calls_since_app, LA_stop_calls |].
  split; [by rewrite Hhw1 |].
  split.
  { unfold tmr_state. rewrite Hhw1. cbn [hw_tmr].
    by rewrite lookup_delete_eq. }
  split.
  { intros k Hk. unfold channel_number, channel_idle.
    rewrite Hhw1. cbn [hw_ic hw_ic_irq hw_dma hw_dma_irq hw_dma_on].
    assert (k = 1 \/ k = 2 \/ k = 3 \/ k = 4)
      as [-> | [-> | [-> | ->]]] by lia; cbn [Z.eqb Pos.eqb];
      rewrite ?H1, ?H2, ?H3, ?H4;
      repeat split; try (rewrite !lookup_delete; by repeat case_decide);
      rewrite !elem_of_difference, !elem_of_singleton; tauto. }
  split; [done |]. split; [done |]. split; [done |].
  split.
  { rewrite (calls_since_app s1 s2 stop_calls) by apply LA_stop_calls.
    symmetry. apply calls_since_app, LA_stop_calls. }
  unfold resources. rewrite Hn2, Hi2. f_equal.
  rewrite Hhw2, Hhw1.
  cbn [hw_tmr hw_ic hw_ic_irq hw_cn_irq hw_dma hw_dma_irq hw_dma_on hw_pins].
  f_equal;
    try (apply map_eq; intros i; rewrite !lookup_delete;
         by repeat case_decide).
  apply set_eq. intros i. rewrite !elem_of_difference. tauto.
Qed.

End Stop.

(** ** The theorems at concrete requests *)

(** The trigger sequence with two active channels. *)
Lemma trigger_sequence_witness :
  let s := mkState 2 0 hw_idle [] in
  g_num_channels s = 2 /\ 1 <= 2 <= 4
  /\ calls (@trigger pslab s)
     = [TMR_set_period TMR_TIMER_5 1; TMR_start TMR_TIMER_5;
        PINS_get_la_states; DMA_start 1; DMA_start 0;
        TMR_set_period TMR_TIMER_5 0]
  /\ g_initial_states (@trigger pslab s) = 5.
Proof.
  intros s. split; [reflexivity |]. split; [lia |].
  destruct (@trigger_sequence pslab s 2 eq_refl ltac:(lia)) as (Hc & Hi & _).
  split; [exact Hc | exact Hi].
Defined.

(** Two channels and 100 events: both channels are set up for 100 events,
    at the start and in the middle of the buffer. *)
Lemma capture_partitions_witness :
  let r := @LA_capture pslab 2 100 3 5 s_init in
  fst r = SUCCESS
  /\ dma_setups (calls_since s_init (snd r))
     = [(0, 100, BUFFER_plus 0); (1, 100, BUFFER_plus 5000)]
  /\ @region_start pslab 2 0 + @region_size pslab 2 <= @region_start pslab 2 1.
Proof.
  intros r.
  destruct (@capture_partitions pslab 2 100 3 5 s_init eq_refl
              ltac:(lia) ltac:(cbn; lia) ltac:(cbn; lia))
    as (Hr & _ & Hd & _ & Hdisj & _).
  split; [exact Hr |]. split; [exact Hd |].
  apply Hdisj; lia.
Defined.

(** C2 as stated fails: for 2 channels and 100 events, with edge RISING and
    no trigger channel, the two Transfer Channels are configured for 100
    events each, not for 100 / 2 = 50. *)
Lemma capture_count_not_divided :
  let r := @LA_capture pslab 2 100 (@EDGE_RISING pslab) (@CHANNEL_NONE pslab)
             s_init in
  fst r = SUCCESS
  /\ dma_setups (calls_since s_init (snd r))
     = [(0, 100, BUFFER_plus 0); (1, 100, BUFFER_plus 5000)]
  /\ dma_setups (calls_since s_init (snd r))
     <> (fun i => (i, Z.quot 100 2, BUFFER_plus (@region_start pslab 2 i)))
        <$> seqZ 0 2.
Proof.
  intros r. vm_compute. repeat split. discriminate.
Qed.

(** A capture on two channels: the timer is reset by the second
    completion and not by the first. *)
Lemma cleanup_callback_session_witness :
  let s := snd (@LA_capture pslab 2 100 3 5 s_init) in
  g_num_channels s = 2
  /\ timer_resets (calls_since s (complete_all [1] s)) = 0%nat
  /\ timer_resets (calls_since s (complete_all [1; 0] s)) = 1%nat
  /\ g_num_channels (complete_all [1; 0] s) = 0.
Proof.
  intros s.
  assert (g_num_channels s = 2) as E by reflexivity.
  destruct (cleanup_callback_session 1 s [1; 0]
              ltac:(rewrite E; lia) ltac:(rewrite E; reflexivity))
    as (_ & Hbefore & Honce & _ & Hzero).
  split; [exact E |]. split; [| split; [exact Honce | exact Hzero]].
  apply (Hbefore 1%nat). cbn. lia.
Defined.

(** The three kinds of rejected request. *)
Lemma LA_capture_rejects_witness :
  @LA_capture pslab 0 100 3 5 s_init = (ARGUMENT_ERROR, s_init)
  /\ @LA_capture pslab 5 100 3 5 s_init = (ARGUMENT_ERROR, s_init)
  /\ @LA_capture pslab 2 100 0 5 s_init = (ARGUMENT_ERROR, s_init).
Proof.
  split; [| split].
  - apply (@LA_capture_rejects pslab 0 100 3 5 s_init eq_refl). lia.
  - apply (@LA_capture_rejects pslab 5 100 3 5 s_init eq_refl). lia.
  - apply (@LA_capture_rejects pslab 2 100 0 5 s_init eq_refl).
    right. right. reflexivity.
Defined.

(** Valid requests and distinct edges in the example numbering. *)
Lemma pslab_valid_request n edge :
  1 <= n <= 4 -> edge <> 0 -> @valid_request pslab n edge.
Proof. intros Hn He. split; [exact Hn | exact He]. Defined.

Lemma pslab_edges_distinct : @edges_distinct pslab.
Proof.
  unfold edges_distinct.
  apply (bool_decide_unpack _). vm_compute. exact I.
Defined.

(** One request for each row of the decision table. *)
Lemma trigger_decision_table_witness :
  calls (snd (@LA_capture pslab 1 100 3 5 s_init))
  = [DMA_setup 0 100 (BUFFER_plus 0) DMA_SOURCE_IC;
     DMA_interrupt_enable 0 cb_cleanup_callback;
     IC_start 0 3 IC_TIMER_PERIPHERAL;
     TMR_set_period TMR_TIMER_5 1; TMR_start TMR_TIMER_5;
     PINS_get_la_states; DMA_start 0; TMR_set_period TMR_TIMER_5 0]
  /\ calls (snd (@LA_capture pslab 1 100 1 0 s_init))
     = [DMA_setup 0 100 (BUFFER_plus 0) DMA_SOURCE_IC;
        DMA_interrupt_enable 0 cb_cleanup_callback;
        IC_start 0 1 IC_TIMER_PERIPHERAL;
        CN_interrupt_enable 0 cb_cn_callback]
  /\ calls (snd (@LA_capture pslab 1 100 3 0 s_init))
     = [DMA_setup 0 100 (BUFFER_plus 0) DMA_SOURCE_IC;
        DMA_interrupt_enable 0 cb_cleanup_callback;
        IC_start 0 3 IC_TIMER_PERIPHERAL;
        IC_interrupt_enable 0 cb_ic_callback].
Proof.
  split; [| split].
  - destruct (@trigger_decision_table pslab 1 100 3 5 s_init
                (pslab_valid_request 1 3 ltac:(lia) ltac:(lia))
                pslab_edges_distinct) as (Hnone & _).
    destruct (Hnone eq_refl) as (Hc & _). exact Hc.
  - destruct (@trigger_decision_table pslab 1 100 1 0 s_init
                (pslab_valid_request 1 1 ltac:(lia) ltac:(lia))
                pslab_edges_distinct) as (_ & Hany & _).
    destruct (Hany ltac:(cbn; lia) eq_refl) as (Hc & _). exact Hc.
  - destruct (@trigger_decision_table pslab 1 100 3 0 s_init
                (pslab_valid_request 1 3 ltac:(lia) ltac:(lia))
                pslab_edges_distinct) as (_ & _ & Hedge).
    destruct (Hedge ltac:(cbn; lia) (or_introl eq_refl)) as (Hc & _). exact Hc.
Defined.

(** Stopping a capture that waits for a RISING trigger on channel 1. *)
Lemma LA_stop_resets_all_witness :
  let s := snd (@LA_capture pslab 2 100 3 1 s_init) in
  let s1 := snd (@LA_stop pslab s) in
  @channels_from_zero pslab
  /\ fst (@LA_stop pslab s) = SUCCESS
  /\ hw_cn_irq (hw s1) = None
  /\ resources (snd (@LA_stop pslab s1)) = resources s1.
Proof.
  intros s s1.
  assert (@channels_from_zero pslab) as Hz by (repeat split).
  destruct (@LA_stop_resets_all pslab s Hz)
    as (Hr & _ & Hcn & _ & _ & _ & _ & _ & _ & Hidem).
  split; [exact Hz |]. split; [exact Hr |]. split; [exact Hcn | exact Hidem].
Defined.

(** 65535 events per channel are accepted although a region holds 5000. *)
Lemma capture_events_unchecked_witness :
  @region_size pslab 2 < 65535
  /\ fst (@LA_capture pslab 2 65535 3 5 s_init) = SUCCESS
  /\ DMA_setup 1 65535 (BUFFER_plus 5000) DMA_SOURCE_IC
     ∈ calls_since s_init (snd (@LA_capture pslab 2 65535 3 5 s_init)).
Proof.
  destruct (@capture_events_unchecked pslab 2 65535 3 5 s_init
              (pslab_valid_request 2 3 ltac:(lia) ltac:(lia)) ltac:(lia))
    as ((Hr & Hin) & _).
  split; [vm_compute; reflexivity |]. split; [exact Hr |].
  apply (Hin 1). lia.
Defined.

(** The byte 200, which is no enumerator of [Edge], is accepted as edge. *)
Lemma capture_edge_unchecked_witness :
  fst (@LA_capture pslab 2 100 200 5 s_init) = SUCCESS
  /\ ic_starts (calls_since s_init (snd (@LA_capture pslab 2 100 200 5 s_init)))
     = [(0, 200, IC_TIMER_PERIPHERAL); (1, 200, IC_TIMER_PERIPHERAL)].
Proof.
  destruct (@capture_edge_unchecked pslab 2 100 200 5 s_init
              ltac:(cbn; lia) ltac:(lia)) as (_ & Hok).
  apply Hok. cbn. lia.
Defined.

(** A completion right after start-up, when the counter is zero. *)
Lemma cleanup_callback_wraps_witness :
  g_num_channels s_init = 0
  /\ g_num_channels (cleanup_callback 2 s_init) = 255
  /\ calls (cleanup_callback 2 s_init) = [DMA_reset 2; IC_reset 2].
Proof.
  destruct (cleanup_callback_wraps 2 s_init eq_refl) as (Hn & Hc & _).
  split; [reflexivity |]. split; [exact Hn | exact Hc].
Defined.

(** ** Further properties of the driver *)

Section Snapshot.
Context `{Platform}.

Lemma calls_since_refl s : calls_since s s = [].
Proof. unfold calls_since. apply drop_all. Qed.

Lemma trigger_switch_idle s :
  ~ 1 <= g_num_channels s <= 4 -> trigger_switch s = s.
Proof.
  intros Hk. unfold trigger_switch.
  repeat (case_match; [lia |]). done.
Qed.

Lemma trigger_dma_on_idle s :
  ~ 1 <= g_num_channels s <= 4 ->
  hw_dma_on (hw (trigger s)) = hw_dma_on (hw s).
Proof.
  intros Hk. unfold trigger. by rewrite trigger_switch_idle.
Qed.

(** X1.  The trigger sequence outside a session.  When the counter of active
    channels is not between 1 and 4 (after the last completion it is 0),
    [trigger] still sets the period, starts the timer, takes the snapshot
    of the pins and restores the period, but it starts no Transfer Channel:
    the timer is left running, and the set of started channels is what it
    was. *)
Theorem trigger_without_channels (s : state) :
  ~ 1 <= g_num_channels s <= 4 ->
  calls (trigger s)
  = calls s ++ [TMR_set_period g_TIMER 1; TMR_start g_TIMER;
                PINS_get_la_states; TMR_set_period g_TIMER 0]
  /\ dma_starts (calls_since s (trigger s)) = []
  /\ g_initial_states (trigger s) = uint8 (hw_pins (hw s))
  /\ tmr_state (hw (trigger s)) g_TIMER = (0, true)
  /\ hw_dma_on (hw (trigger s)) = hw_dma_on (hw s).
Proof.
  intros Hk.
  assert (calls (trigger s)
          = calls s ++ [TMR_set_period g_TIMER 1; TMR_start g_TIMER;
                        PINS_get_la_states; TMR_set_period g_TIMER 0]) as Hc.
  { rewrite calls_trigger. unfold trigger_calls.
    by rewrite decide_False. }
  split; [exact Hc |].
  split; [by rewrite (calls_since_app _ _ _ Hc) |].
  split; [apply trigger_globals |].
  split; [apply trigger_tmr | by apply trigger_dma_on_idle].
Qed.





End Snapshot.

Section Deferred.
Context `{Platform}.

Lemma configure_trigger_deferred edge trigger_pin s :
  trigger_pin <> CHANNEL_NONE ->
  configure_trigger edge trigger_pin s = perform (arm_call edge trigger_pin) s.
Proof.
  intros Hset. unfold configure_trigger, arm_call.
  rewrite (proj2 (Z.eqb_neq _ _) Hset). by case_match.
Qed.

Lemma trigger_interrupt_armed edge trigger_pin v s :
  let s1 := set_pins v (perform (arm_call edge trigger_pin) s) in
  trigger_interrupt edge trigger_pin s1
  = trigger (perform (disarm_call edge trigger_pin) s1).
Proof.
  unfold trigger_interrupt, arm_call, disarm_call.
  destruct (edge =? EDGE_ANY); cbn zeta.
  - reflexivity.
  - unfold IC_interrupt.
    cbn [set_pins perform hw hw_step hw_ic_irq].
    by rewrite lookup_insert_eq.
Qed.

(** X3.  A capture with a trigger channel.  [LA_capture] arms the trigger and
    returns with [g_initial_states] as it was, so that the snapshot read
    before the trigger is the one of an earlier capture.  When the armed
    interrupt then occurs, its callback makes the disarming call followed
    by the trigger sequence for all [n] channels, and the snapshot holds the
    levels the pins have at that moment, not those at the request. *)
Theorem deferred_capture (n events edge trigger_pin v : Z) (s : state) :
  valid_request n edge ->
  trigger_pin <> CHANNEL_NONE ->
  let s1 := snd (LA_capture n events edge trigger_pin s) in
  let s2 := trigger_interrupt edge trigger_pin (set_pins v s1) in
  calls_since s s1 = setup_calls n events edge ++ [arm_call edge trigger_pin]
  /\ g_initial_states s1 = g_initial_states s
  /\ calls_since s1 s2
     = disarm_call edge trigger_pin :: trigger_calls n
  /\ g_initial_states s2 = uint8 v
  /\ g_num_channels s2 = n
  /\ trigger_interrupt edge trigger_pin s2 = s2.
Proof.
  intros Hv Hset s1 s2.
  assert (s1 = perform (arm_call edge trigger_pin) (armed n events edge s))
    as Hs1.
  { subst s1. rewrite LA_capture_valid by done. cbn [snd].
    by rewrite capture_unfold, configure_trigger_deferred. }
  destruct (armed_facts n events edge s) as (Hc & Hn & Hi & _).
  assert (s2 = trigger (perform (disarm_call edge trigger_pin) (set_pins v s1)))
    as Hs2.
  { subst s2. rewrite Hs1. apply trigger_interrupt_armed. }
  split.
  { apply calls_since_app. rewrite Hs1, calls_perform, Hc.
    by rewrite <- app_assoc. }
  split; [by rewrite Hs1 |].
  split.
  { apply calls_since_app. rewrite Hs2, calls_trigger, calls_perform.
    cbn [set_pins calls perform g_num_channels].
    rewrite Hs1. cbn [perform g_num_channels calls]. rewrite Hn.
    by rewrite <- app_assoc. }
  split.
  { rewrite Hs2.
    destruct (trigger_globals
                (perform (disarm_call edge trigger_pin) (set_pins v s1)))
      as [_ ->].
    unfold disarm_call. by case_match. }
  split.
  { rewrite Hs2.
    destruct (trigger_globals
                (perform (disarm_call edge trigger_pin) (set_pins v s1)))
      as [-> _].
    rewrite Hs1. exact Hn. }
  rewrite Hs2.
  destruct (trigger_irqs
              (perform (disarm_call edge trigger_pin) (set_pins v s1)))
    as [Hcn Hic].
  unfold trigger_interrupt, disarm_call in *.
  destruct (edge =? EDGE_ANY).
  - unfold CN_interrupt. by rewrite Hcn.
  - unfold IC_interrupt. rewrite Hic.
    cbn [perform hw hw_step hw_ic_irq]. by rewrite lookup_delete_eq.
Qed.

(** X4.  [LA_capture] does not look at the state.  Its answer and the calls it
    makes are the same from every state: a request that arrives while a
    capture is in flight is neither rejected nor treated differently, and a
    request that is accepted overwrites the counter of active channels. *)
Theorem LA_capture_ignores_state (n events edge trigger_pin : Z)
    (s1 s2 : state) :
  let r1 := LA_capture n events edge trigger_pin s1 in
  let r2 := LA_capture n events edge trigger_pin s2 in
  fst r1 = fst r2
  /\ calls_since s1 (snd r1) = calls_since s2 (snd r2)
  /\ g_num_channels (snd r1)
     = match fst r1 with
       | SUCCESS => n
       | ARGUMENT_ERROR => g_num_channels s1
       end.
Proof.
  intros r1 r2. subst r1 r2. unfold LA_capture.
  repeat (case_match;
          [cbn [fst snd]; by rewrite !calls_since_refl |]).
  cbn [fst snd]. split; [done |]. split.
  - rewrite (calls_since_app _ _ _
               (capture_calls n events edge trigger_pin s1)).
    by rewrite (calls_since_app _ _ _
                  (capture_calls n events edge trigger_pin s2)).
  - rewrite capture_unfold, configure_trigger_counter.
    by destruct (armed_facts n events edge s1) as (_ & -> & _).
Qed.

End Deferred.

Section Order.
Context `{Platform}.

Lemma dma_starts_app l1 l2 : dma_starts (l1 ++ l2) = dma_starts l1 ++ dma_starts l2.
Proof. apply omap_app. Qed.

Lemma dma_starts_setup_calls n events edge : dma_starts (setup_calls n events edge) = [].
Proof.
  unfold setup_calls. induction (seqZ 0 n) as [| i l IH]; [done |].
  cbn [mbind list_bind]. by rewrite dma_starts_app, IH.
Qed.

Lemma dma_starts_fmap l : dma_starts (DMA_start <$> l) = l.
Proof. induction l as [| c l IH]; [done |]. cbn. f_equal. exact IH. Qed.

Lemma ic_starts_dma_start l : ic_starts (DMA_start <$> l) = [].
Proof. by induction l. Qed.

Lemma dma_setups_dma_start l : dma_setups (DMA_start <$> l) = [].
Proof. by induction l. Qed.

(** X5.  The order in which an immediate capture switches the units on.  In the
    calls of a capture without trigger channel the start of the timer comes
    after the set-up of every Transfer Channel and the start of every
    Input Capture unit, and before the start of any Transfer Channel: the
    Input Capture units wait for the clock, and no Transfer Channel runs
    before the clock does. *)
Theorem capture_start_order (n events edge : Z) (s : state) :
  valid_request n edge ->
  n <= 4 ->
  let s' := snd (LA_capture n events edge CHANNEL_NONE s) in
  exists pre post,
    calls_since s s' = pre ++ TMR_start g_TIMER :: post
    /\ dma_setups pre
       = (fun i => (i, events, BUFFER_plus (region_start n i))) <$> seqZ 0 n
    /\ ic_starts pre = (fun i => (i, edge, timer2ictsel g_TIMER)) <$> seqZ 0 n
    /\ dma_starts pre = []
    /\ dma_setups post = []
    /\ ic_starts post = []
    /\ dma_starts post = descending n.
Proof.
  intros Hv Hn s'.
  exists (setup_calls n events edge ++ [TMR_set_period g_TIMER 1]),
         ([PINS_get_la_states] ++ (DMA_start <$> descending n)
          ++ [TMR_set_period g_TIMER 0]).
  split.
  { subst s'. rewrite LA_capture_calls by done.
    unfold trigger_config_calls, trigger_calls.
    rewrite Z.eqb_refl, decide_True by (destruct Hv; lia).
    by rewrite <- !app_assoc. }
  rewrite dma_setups_app, ic_starts_app, dma_starts_app.
  unfold setup_calls at 1 2.
  rewrite dma_setups_setup_calls, ic_starts_setup_calls, dma_starts_setup_calls.
  rewrite !app_nil_r.
  repeat split.
  - rewrite !dma_setups_app, dma_setups_dma_start. done.
  - rewrite !ic_starts_app, ic_starts_dma_start. done.
  - rewrite !dma_starts_app, dma_starts_fmap. cbn. by rewrite app_nil_r.
Qed.

(** X6.  The trigger channel is not validated.  Every byte other than
    [CHANNEL_NONE] is accepted as trigger channel, and the last call of
    [LA_capture] arms the trigger on it.  When the byte is not below the
    number of channels, the request has neither started the Input Capture
    unit of that channel nor set up its Transfer Channel. *)
Theorem trigger_pin_unchecked (n events edge trigger_pin : Z) (s : state) :
  valid_request n edge ->
  0 <= trigger_pin <= 255 ->
  trigger_pin <> CHANNEL_NONE ->
  let r := LA_capture n events edge trigger_pin s in
  fst r = SUCCESS
  /\ last (calls (snd r)) = Some (arm_call edge trigger_pin)
  /\ (n <= trigger_pin ->
      Forall (fun x => x.1.1 <> trigger_pin) (ic_starts (calls_since s (snd r)))
      /\ Forall (fun x => x.1.1 <> trigger_pin)
           (dma_setups (calls_since s (snd r)))).
Proof.
  intros Hv Hbyte Hset r. subst r.
  split; [by rewrite LA_capture_valid |].
  split.
  { rewrite LA_capture_valid by done. cbn [snd].
    rewrite capture_unfold, configure_trigger_deferred by done.
    rewrite calls_perform. apply last_snoc. }
  intros Hout.
  rewrite LA_capture_calls, ic_starts_app, dma_setups_app by done.
  destruct (trigger_config_no_setup n edge trigger_pin) as [-> ->].
  unfold setup_calls.
  rewrite ic_starts_setup_calls, dma_setups_setup_calls, !app_nil_r.
  split; apply Forall_fmap, Forall_forall; intros i Hi;
    apply elem_of_seqZ in Hi; cbn; lia.
Qed.

End Order.

Section Tiling.
Context `{Platform}.

(** X7.  The region starts tile the buffer.  For [n] channels the starts that
    [capture] computes begin at 0, and the start of each next region (the
    end of the buffer after the last) lies one region length or one
    element more further on, so that the [n] regions between consecutive
    starts cover the whole buffer and differ in length by at most one. *)
Theorem region_starts_tile (n i : Z) :
  0 < n ->
  0 <= BUFFER_SIZE ->
  0 <= i < n ->
  region_start n 0 = 0
  /\ region_start n n = BUFFER_SIZE
  /\ region_size n <= region_start n (i + 1) - region_start n i
     <= region_size n + 1.
Proof.
  intros Hn Hb Hi.
  split; [apply region_start_0 |].
  split; [by apply region_start_end |].
  split; [pose proof (region_start_succ n i Hn ltac:(lia) Hb); lia |].
  rewrite !region_start_div, region_size_div by lia.
  pose proof (Z.div_mod (i * BUFFER_SIZE) n ltac:(lia)) as E1.
  pose proof (Z.mod_pos_bound (i * BUFFER_SIZE) n Hn) as B1.
  pose proof (Z.div_mod BUFFER_SIZE n ltac:(lia)) as E2.
  pose proof (Z.mod_pos_bound BUFFER_SIZE n Hn) as B2.
  assert (((i + 1) * BUFFER_SIZE) `div` n
          < (i * BUFFER_SIZE) `div` n + BUFFER_SIZE `div` n + 2); [| lia].
  apply Z.div_lt_upper_bound; [lia |]. nia.
Qed.

End Tiling.

Section Session.
Context `{Platform}.

Lemma capture_loop_dma_irq n events edge l s i :
  hw_dma_irq (hw (foldl (capture_body n events edge) s l)) !! i
  = if decide (i ∈ l) then Some cb_cleanup_callback
    else hw_dma_irq (hw s) !! i.
Proof.
  revert s. induction l as [| a l IH]; intros s.
  - cbn [foldl]. rewrite decide_False; [done | apply not_elem_of_nil].
  - cbn [foldl]. rewrite IH.
    destruct (decide (i ∈ l)) as [Hl | Hl].
    + rewrite decide_True; [done | by right].
    + unfold capture_body. cbn [perform hw hw_step hw_dma_irq].
      rewrite lookup_insert.
      destruct (decide (a = i)) as [-> | Hne].
      * rewrite decide_True; [done | by left].
      * rewrite decide_False; [done |].
        rewrite elem_of_cons. intros [-> | Hin]; done.
Qed.

Lemma trigger_switch_dma_irq s :
  hw_dma_irq (hw (trigger_switch s)) = hw_dma_irq (hw s).
Proof.
  unfold trigger_switch.
  repeat (case_match; [done |]). done.
Qed.

Lemma configure_trigger_dma_irq edge trigger_pin s :
  hw_dma_irq (hw (configure_trigger edge trigger_pin s)) = hw_dma_irq (hw s).
Proof.
  unfold configure_trigger. repeat case_match; try done.
  unfold trigger. cbn [perform hw hw_step hw_dma_irq].
  by rewrite trigger_switch_dma_irq.
Qed.

Lemma LA_capture_registers n events edge trigger_pin s i :
  valid_request n edge ->
  0 <= i < n ->
  hw_dma_irq (hw (snd (LA_capture n events edge trigger_pin s))) !! i
  = Some cb_cleanup_callback.
Proof.
  intros Hv Hi. rewrite LA_capture_valid by done. cbn [snd].
  rewrite capture_unfold, configure_trigger_dma_irq.
  unfold armed. rewrite capture_loop_dma_irq.
  rewrite decide_True; [done |]. apply elem_of_seqZ. lia.
Qed.

Lemma cleanup_callback_hw c s :
  hw_ic (hw (cleanup_callback c s)) = delete c (hw_ic (hw s))
  /\ hw_ic_irq (hw (cleanup_callback c s)) = delete c (hw_ic_irq (hw s))
  /\ hw_dma (hw (cleanup_callback c s)) = delete c (hw_dma (hw s))
  /\ hw_dma_irq (hw (cleanup_callback c s)) = delete c (hw_dma_irq (hw s))
  /\ hw_dma_on (hw (cleanup_callback c s)) = hw_dma_on (hw s) ∖ {[c]}.
Proof. unfold cleanup_callback. cbn zeta. by case_match. Qed.

Lemma cleanup_callback_idle c s : channel_idle (hw (cleanup_callback c s)) c.
Proof.
  destruct (cleanup_callback_hw c s) as (E1 & E2 & E3 & E4 & E5).
  unfold channel_idle. rewrite E1, E2, E3, E4, E5, !lookup_delete_eq.
  repeat split. rewrite elem_of_difference, elem_of_singleton. tauto.
Qed.

Lemma cleanup_callback_keeps_idle c s i :
  channel_idle (hw s) i -> channel_idle (hw (cleanup_callback c s)) i.
Proof.
  destruct (cleanup_callback_hw c s) as (E1 & E2 & E3 & E4 & E5).
  unfold channel_idle. rewrite E1, E2, E3, E4, E5, !lookup_delete.
  intros (I1 & I2 & I3 & I4 & I5).
  repeat split; try (by case_decide).
  rewrite elem_of_difference. tauto.
Qed.

Lemma complete_all_keeps_idle cs s i :
  channel_idle (hw s) i -> channel_idle (hw (complete_all cs s)) i.
Proof.
  revert s. induction cs as [| c cs IH]; intros s Hi; [done |].
  cbn [complete_all foldl]. fold (complete_all cs (cleanup_callback c s)).
  by apply IH, cleanup_callback_keeps_idle.
Qed.

Lemma complete_all_idle cs s i :
  i ∈ cs -> channel_idle (hw (complete_all cs s)) i.
Proof.
  revert s. induction cs as [| c cs IH]; intros s Hi.
  - by apply elem_of_nil in Hi.
  - cbn [complete_all foldl]. fold (complete_all cs (cleanup_callback c s)).
    apply elem_of_cons in Hi as [-> | Hi].
    + apply complete_all_keeps_idle, cleanup_callback_idle.
    + by apply IH.
Qed.

(** The completion interrupts of distinct channels whose callback is
    [cleanup_callback] run exactly the callbacks. *)
Lemma complete_interrupts_run cs s :
  NoDup cs ->
  (forall c, c ∈ cs -> hw_dma_irq (hw s) !! c = Some cb_cleanup_callback) ->
  complete_interrupts cs s = complete_all cs s.
Proof.
  revert s. induction cs as [| c cs IH]; intros s Hnd Hreg; [done |].
  apply NoDup_cons in Hnd as [Hc Hnd].
  cbn [complete_interrupts complete_all foldl].
  fold (complete_interrupts cs (DMA_interrupt c s)).
  fold (complete_all cs (cleanup_callback c s)).
  assert (DMA_interrupt c s = cleanup_callback c s) as ->.
  { unfold DMA_interrupt. rewrite Hreg; [done | by left]. }
  apply IH; [done |].
  intros c' Hc'.
  destruct (cleanup_callback_hw c s) as (_ & _ & _ & -> & _).
  rewrite lookup_delete_ne by (intros ->; done).
  apply Hreg. by right.
Qed.

(** When as many channels complete as the counter says, the last
    completion leaves the shared timer reset. *)
Lemma complete_all_timer cs s :
  1 <= g_num_channels s <= 255 ->
  Z.of_nat (length cs) = g_num_channels s ->
  hw_tmr (hw (complete_all cs s)) !! g_TIMER = None.
Proof.
  revert s. induction cs as [| c cs IH]; intros s Hg Hlen.
  - cbn in Hlen. lia.
  - cbn [complete_all foldl]. fold (complete_all cs (cleanup_callback c s)).
    pose proof (cleanup_callback_counter c s) as Hc.
    rewrite uint8_pred in Hc by lia.
    cbn [length] in Hlen.
    destruct cs as [| c' cs].
    + cbn in Hlen. cbn [complete_all foldl].
      unfold cleanup_callback. cbn zeta.
      cbn [perform set_g_num_channels g_num_channels].
      rewrite uint8_pred by lia.
      rewrite (proj2 (Z.eqb_eq _ _)) by lia.
      cbn [perform hw hw_step hw_tmr]. apply lookup_delete_eq.
    + apply IH; cbn [length] in *; lia.
Qed.

(** X8.  A whole session.  After an accepted request (at most 255 channels can
    be counted), let the completion interrupts of the [n] active channels
    occur, each once, in any order.  Each interrupt runs [cleanup_callback]
    for its channel; at the end the counter is zero, the timer was reset
    once, by the last call, and is idle, and the units of all [n] channels
    are idle.  A completion interrupt of an active channel that occurs
    again runs nothing. *)
Theorem completion_session (n events edge trigger_pin : Z) (cs : list Z)
    (s : state) :
  valid_request n edge ->
  CHANNEL_NUMEL <= 255 ->
  cs ≡ₚ seqZ 0 n ->
  let s1 := snd (LA_capture n events edge trigger_pin s) in
  let s2 := complete_interrupts cs s1 in
  s2 = complete_all cs s1
  /\ g_num_channels s2 = 0
  /\ timer_resets (calls_since s1 s2) = 1%nat
  /\ last (calls s2) = Some (TMR_reset g_TIMER)
  /\ tmr_state (hw s2) g_TIMER = (0, false)
  /\ (forall i, 0 <= i < n ->
        channel_idle (hw s2) i /\ DMA_interrupt i s2 = s2).
Proof.
  intros Hv Hmax Hperm s1 s2.
  destruct Hv as [Hn He].
  assert (valid_request n edge) as Hv by done.
  assert (forall c, c ∈ cs <-> 0 <= c < n) as Hmem.
  { intros c. rewrite Hperm, elem_of_seqZ. lia. }
  assert (Z.of_nat (length cs) = n) as Hlen.
  { rewrite Hperm, length_seqZ. lia. }
  assert (g_num_channels s1 = n) as Hcount.
  { subst s1. rewrite LA_capture_valid by done. cbn [snd].
    rewrite capture_unfold, configure_trigger_counter.
    by destruct (armed_facts n events edge s) as (_ & -> & _). }
  assert (s2 = complete_all cs s1) as Hs2.
  { apply complete_interrupts_run.
    - rewrite Hperm. apply NoDup_seqZ.
    - intros c Hc. apply LA_capture_registers; [done | by apply Hmem]. }
  destruct (complete_all_run cs s1) as [Hzero Hcalls]; [lia | lia |].
  rewrite decide_True in Hcalls
    by (split; [destruct cs; [cbn in Hlen; lia | done] | lia]).
  split; [done |]. rewrite Hs2.
  split; [lia |].
  split.
  { rewrite (calls_since_app _ _ _ Hcalls), timer_resets_app.
    by rewrite timer_resets_cleanup_calls. }
  split; [by rewrite Hcalls, !app_assoc, last_snoc |].
  split.
  { unfold tmr_state. by rewrite complete_all_timer by lia. }
  intros i Hi.
  assert (channel_idle (hw (complete_all cs s1)) i) as Hidle
    by (by apply complete_all_idle, Hmem).
  split; [done |].
  unfold DMA_interrupt. by destruct Hidle as (_ & _ & _ & -> & _).
Qed.

End Session.

Section Surplus.

Lemma complete_all_app cs1 cs2 s :
  complete_all (cs1 ++ cs2) s = complete_all cs2 (complete_all cs1 s).
Proof. unfold complete_all. apply foldl_app. Qed.

(** Completions from counter zero: the first wraps the counter to 255, and
    up to 255 of them never reset the timer. *)
Lemma complete_all_from_zero cs s :
  g_num_channels s = 0 ->
  (1 <= length cs <= 255)%nat ->
  g_num_channels (complete_all cs s) = 256 - Z.of_nat (length cs)
  /\ calls (complete_all cs s) = calls s ++ (cs ≫= channel_cleanup_calls).
Proof.
  intros Hg Hlen. destruct cs as [| c cs]; [cbn in Hlen; lia |].
  cbn [length] in Hlen.
  cbn [complete_all foldl]. fold (complete_all cs (cleanup_callback c s)).
  pose proof (cleanup_callback_counter c s) as Hc.
  pose proof (cleanup_callback_calls c s) as Hl.
  rewrite Hg in Hc, Hl. change (uint8 (0 - 1)) with 255 in Hc, Hl.
  rewrite decide_False in Hl by done.
  destruct (complete_all_run cs (cleanup_callback c s)) as [Hn Hcalls];
    [lia | lia |].
  rewrite decide_False in Hcalls by lia.
  split; [rewrite Hn, Hc; cbn [length]; lia |].
  rewrite Hcalls, Hl. cbn [mbind list_bind].
  by rewrite !app_nil_r, <- !app_assoc.
Qed.

(** X9.  More completions than active channels.  When the counter is [g] and
    more than [g] completion callbacks run (at most 255 more), the timer is
    reset once, right after the resets of the [g]-th callback, and never
    again; the surplus callbacks still reset the units of their channels
    and leave the counter at 256 minus their number. *)
Theorem completions_beyond_counter (cs : list Z) (s : state) :
  1 <= g_num_channels s <= 255 ->
  g_num_channels s < Z.of_nat (length cs) <= g_num_channels s + 255 ->
  let g := Z.to_nat (g_num_channels s) in
  calls_since s (complete_all cs s)
  = (take g cs ≫= channel_cleanup_calls) ++ [TMR_reset g_TIMER]
    ++ (drop g cs ≫= channel_cleanup_calls)
  /\ timer_resets (calls_since s (complete_all cs s)) = 1%nat
  /\ g_num_channels (complete_all cs s)
     = 256 + g_num_channels s - Z.of_nat (length cs).
Proof.
  intros Hg Hlen g.
  assert (complete_all cs s
          = complete_all (drop g cs) (complete_all (take g cs) s)) as ->
    by (by rewrite <- complete_all_app, take_drop).
  assert (length (take g cs) = g) as Htake by (rewrite length_take; lia).
  assert (length (drop g cs) = (length cs - g)%nat) as Hdrop
    by apply length_drop.
  destruct (complete_all_run (take g cs) s) as [Hn1 Hc1]; [lia | lia |].
  rewrite decide_True in Hc1
    by (split; [destruct (take g cs); [cbn in Htake; lia | done] | lia]).
  destruct (complete_all_from_zero (drop g cs) (complete_all (take g cs) s))
    as [Hn2 Hc2]; [lia | lia |].
  assert (calls_since s (complete_all (drop g cs) (complete_all (take g cs) s))
          = (take g cs ≫= channel_cleanup_calls) ++ [TMR_reset g_TIMER]
            ++ (drop g cs ≫= channel_cleanup_calls)) as Hcalls.
  { apply calls_since_app. rewrite Hc2, Hc1. by rewrite <- !app_assoc. }
  split; [exact Hcalls |].
  split.
  - rewrite Hcalls, !timer_resets_app, !timer_resets_cleanup_calls. done.
  - rewrite Hn2, Hdrop. lia.
Qed.

End Surplus.

(** ** The further properties at concrete requests *)

(** A trigger right after start-up, when no channel is active. *)
Lemma trigger_without_channels_witness :
  calls (@trigger pslab s_init)
  = [TMR_set_period TMR_TIMER_5 1; TMR_start TMR_TIMER_5;
     PINS_get_la_states; TMR_set_period TMR_TIMER_5 0]
  /\ tmr_state (hw (@trigger pslab s_init)) g_TIMER = (0, true).
Proof.
  destruct (@trigger_without_channels pslab s_init ltac:(cbn; lia))
    as (Hc & _ & _ & Ht & _).
  split; [exact Hc | exact Ht].
Defined.


(** A capture on one channel that waits for any edge on channel 0; the
    pins are at 9 when the edge comes. *)
Lemma deferred_capture_witness :
  let s1 := snd (@LA_capture pslab 1 100 1 0 s_init) in
  let s2 := @trigger_interrupt pslab 1 0 (set_pins 9 s1) in
  g_initial_states s1 = 0
  /\ g_initial_states s2 = 9
  /\ calls_since s1 s2
     = [CN_reset; TMR_set_period TMR_TIMER_5 1; TMR_start TMR_TIMER_5;
        PINS_get_la_states; DMA_start 0; TMR_set_period TMR_TIMER_5 0].
Proof.
  intros s1 s2.
  destruct (@deferred_capture pslab 1 100 1 0 9 s_init
              (pslab_valid_request 1 1 ltac:(lia) ltac:(lia))
              ltac:(cbn; lia))
    as (_ & Hstale & Hc & Hsnap & _).
  split; [exact Hstale |]. split; [exact Hsnap | exact Hc].
Defined.

(** Three channels without trigger channel. *)
Lemma capture_start_order_witness :
  exists pre post,
    calls_since s_init (snd (@LA_capture pslab 3 100 3 5 s_init))
    = pre ++ TMR_start g_TIMER :: post
    /\ ic_starts post = []
    /\ dma_starts pre = []
    /\ dma_starts post = [2; 1; 0].
Proof.
  destruct (@capture_start_order pslab 3 100 3 s_init
              (pslab_valid_request 3 3 ltac:(lia) ltac:(lia)) ltac:(lia))
    as (pre & post & Hc & _ & _ & Hpre & _ & Hic & Hpost).
  exists pre, post.
  split; [exact Hc |]. split; [exact Hic |]. split; [exact Hpre | exact Hpost].
Defined.

(** One channel, with a RISING trigger on channel 2, which is not active. *)
Lemma trigger_pin_unchecked_witness :
  fst (@LA_capture pslab 1 100 3 2 s_init) = SUCCESS
  /\ last (calls (snd (@LA_capture pslab 1 100 3 2 s_init)))
     = Some (IC_interrupt_enable 2 cb_ic_callback)
  /\ Forall (fun x => x.1.1 <> 2)
       (ic_starts (calls_since s_init (snd (@LA_capture pslab 1 100 3 2 s_init)))).
Proof.
  destruct (@trigger_pin_unchecked pslab 1 100 3 2 s_init
              (pslab_valid_request 1 3 ltac:(lia) ltac:(lia))
              ltac:(lia) ltac:(cbn; lia))
    as (Hr & Hlast & Hout).
  split; [exact Hr |]. split; [exact Hlast |].
  apply Hout. lia.
Defined.

(** Three channels share the 10k buffer: the last region is one element
    longer than the others. *)
Lemma region_starts_tile_witness :
  @region_start pslab 3 3 = 10000
  /\ @region_size pslab 3
     <= @region_start pslab 3 (2 + 1) - @region_start pslab 3 2
     <= @region_size pslab 3 + 1.
Proof.
  destruct (@region_starts_tile pslab 3 2 ltac:(lia) ltac:(cbn; lia)
              ltac:(lia)) as (_ & Hend & Hgap).
  split; [exact Hend | exact Hgap].
Defined.

(** Two channels; channel 1 completes before channel 0. *)
Lemma completion_session_witness :
  let s1 := snd (@LA_capture pslab 2 100 3 5 s_init) in
  let s2 := @complete_interrupts pslab [1; 0] s1 in
  g_num_channels s2 = 0
  /\ tmr_state (hw s2) g_TIMER = (0, false)
  /\ @DMA_interrupt pslab 1 s2 = s2.
Proof.
  intros s1 s2.
  destruct (@completion_session pslab 2 100 3 5 [1; 0] s_init
              (pslab_valid_request 2 3 ltac:(lia) ltac:(lia))
              ltac:(cbn; lia) (perm_swap 0 1 []))
    as (_ & Hz & _ & _ & Ht & Hidle).
  split; [exact Hz |]. split; [exact Ht |].
  apply (Hidle 1). lia.
Defined.

(** Two active channels and three completions. *)
Lemma completions_beyond_counter_witness :
  let s := snd (@LA_capture pslab 2 100 3 5 s_init) in
  calls_since s (complete_all [0; 1; 0] s)
  = [DMA_reset 0; IC_reset 0; DMA_reset 1; IC_reset 1;
     TMR_reset TMR_TIMER_5; DMA_reset 0; IC_reset 0]
  /\ g_num_channels (complete_all [0; 1; 0] s) = 255.
Proof.
  intros s.
  assert (g_num_channels s = 2) as E by reflexivity.
  destruct (completions_beyond_counter [0; 1; 0] s
              ltac:(rewrite E; lia) ltac:(rewrite E; cbn; lia))
    as (Hc & _ & Hn).
  split; [exact Hc | exact Hn].
Defined.
